(** * MUSE-HideBiliShow-Scanner: a model of [hidebilishow_scanner.py]

    The scanner walks an inclusive range of project IDs, asks the ticketing
    API for each of them, records one result per ID and collects the results
    whose [hide] field equals 1.  This file embeds the class
    [BilibiliShowScanner] and the Python operations it relies on, and proves
    the behaviour of [get_project_info], [scan_project], [scan_range] and
    [save_results].  The banner, the version lookup and the interactive
    shell ([get_version], [show_muse_banner], [get_user_input], [main]) are
    not part of it.

    Modelling decisions, in one place:

    - Python values that come out of [response.json()] are [pyval]s.  JSON
      numbers are integers here; numbers with a fraction or an exponent
      (doubles on the Python side) are outside the model, and so are the
      [interval]s that are not rationals.
    - Python strings are [string]s holding the UTF-8 bytes of the text; a
      surrogate code point, which a str can hold and UTF-8 proper cannot,
      is held in the three-byte form of its neighbours.
    - The outside world (HTTP server, clock, disk) is an [environment]: a
      family of oracles that answer from the history of events so far.
      Every effect of the program is appended to that history, the [trace].
    - Methods are computations in the monad [M]: they read the environment,
      thread the [state] (the two list attributes of the scanner and the
      trace) and either return or raise a Python exception.
    - The calls into requests, time and json behave as these libraries do:
      [session.get], [raise_for_status] and [response.json] return or raise
      as the environment says; [v.get] raises AttributeError on a value
      that is not a dict; [time.sleep] raises ValueError on a negative
      length and OverflowError on a length beyond the range of the
      platform; [json.dump] and [json.loads] are modelled on the text they
      write and read (module [Json]), and a text that holds a surrogate
      cannot be written to a file opened with [encoding='utf-8'].
    - Console lines are kept as structured [line]s; the text formatting of
      f-strings is not modelled.  Printing and reading the clock never
      fail.  Operator interruption (KeyboardInterrupt) is not modelled. *)

From Stdlib Require Import ZArith List String Ascii Bool Lia QArith.
From Stdlib Require Import DecimalString DecimalZ DecimalPos.
Import ListNotations.

Open Scope string_scope.
Open Scope Z_scope.
Open Scope list_scope.

(* ================================================================== *)
(** ** Python values *)
(* ================================================================== *)

#[warnings="-register-all"]
Inductive pyval : Type :=
| PyNone
| PyBool (b : bool)
| PyInt (z : Z)
| PyStr (s : string)
| PyList (l : list pyval)
| PyDict (kv : list (string * pyval)).

(** A dict is an association list in insertion order; keys of a dict that
    Python built are distinct, and lookup takes the first binding. *)
Fixpoint dict_lookup (kv : list (string * pyval)) (k : string) : option pyval :=
  match kv with
  | [] => None
  | (k', v) :: kv' => if String.eqb k' k then Some v else dict_lookup kv' k
  end.

(** [d.get(k, default)] on a dict. *)
Definition dict_get (kv : list (string * pyval)) (k : string) (default : pyval) : pyval :=
  match dict_lookup kv k with
  | Some v => v
  | None => default
  end.

(** [v == n] for an integer literal [n]: Python compares ints by value,
    takes [True] and [False] for 1 and 0, and holds every other JSON value
    different from an int. *)
Definition py_eq_int (v : pyval) (n : Z) : bool :=
  match v with
  | PyInt z => z =? n
  | PyBool b => (if b then 1 else 0) =? n
  | _ => false
  end.

(** [str(n)] for an int. *)
Definition str_of_int (n : Z) : string := NilZero.string_of_int (Z.to_int n).

(** [range(lo, hi)]: the integers from [lo] up to, not including, [hi]. *)
Definition range (lo hi : Z) : list Z :=
  map (fun i => lo + Z.of_nat i) (seq 0 (Z.to_nat (hi - lo))).

(* ================================================================== *)
(** ** Exceptions *)
(* ================================================================== *)

(** The exception classes that matter to the [except] clauses of the
    program.  [RequestsJSONDecodeError] is the class raised by
    [response.json()] in recent versions of requests; it derives from both
    [RequestException] and [json.JSONDecodeError]. *)
Inductive exn_class : Type :=
| HTTPError
| ConnectionError
| Timeout
| RequestsJSONDecodeError
| JSONDecodeError
| AttributeError
| ValueError
| OverflowError
| UnicodeEncodeError
| OSError
| OtherException.

Record exn : Type := mk_exn { exn_cls : exn_class; exn_str : string }.

(** [isinstance(e, requests.exceptions.RequestException)] *)
Definition is_RequestException (e : exn) : bool :=
  match exn_cls e with
  | HTTPError | ConnectionError | Timeout | RequestsJSONDecodeError => true
  | _ => false
  end.

(** [isinstance(e, json.JSONDecodeError)] *)
Definition is_JSONDecodeError (e : exn) : bool :=
  match exn_cls e with
  | RequestsJSONDecodeError | JSONDecodeError => true
  | _ => false
  end.

(* ================================================================== *)
(** ** Results of a scan, console lines, events *)
(* ================================================================== *)

(** The [result] dict of [scan_project].  It always carries the five keys of
    its literal, so it is a record; [outcome_dict] below gives the dict that
    [json.dump] sees. *)
Record outcome : Type := mk_outcome {
  id : Z;
  hide : pyval;
  name : pyval;
  status : string;
  error : option string
}.

(** [datetime] values: only their two renderings are used. *)
Record datetime : Type := mk_datetime {
  isoformat : string;          (* [.isoformat()] *)
  strftime_compact : string    (* [.strftime("%Y%m%d_%H%M%S")] *)
}.

Inductive line : Type :=
(* get_project_info *)
| LApiError (project_id : Z) (message : pyval)
| LRequestFailed (project_id : Z) (e : string)
| LJsonFailed (project_id : Z) (e : string)
| LUnknownError (project_id : Z) (e : string)
(* scan_range *)
| LScanStart (start_id end_id : Z)
| LInterval (interval : Q)
| LRule
| LProgress (scanned_count total_count project_id : Z)
| LError (e : option string)
| LFoundHidden (name : pyval)
| LHide (hide : pyval)
| LDone
| LDuration (start_time end_time : datetime)
| LTotal (total_count : Z)
| LSuccessCount (n : Z)
| LErrorCount (n : Z)
| LHiddenCount (n : Z)
| LHiddenHeader
| LHiddenItem (project_id : Z) (name : pyval)
(* save_results *)
| LSaved (filename : string)
| LSaveFailed (e : string).

Inductive event : Type :=
| EGet (url : string) (headers : list (string * string)) (timeout : Z)
| ESleep (seconds : Q)
| EPrint (l : line)
| ENow
| EWriteFile (filename : string) (content : string) (failure : option exn).

(* ================================================================== *)
(** ** The outside world *)
(* ================================================================== *)

(** What [session.get] hands back when it does not raise: whether
    [raise_for_status()] raises (and with which message), and what
    [json()] returns or raises. *)
Record response : Type := mk_response {
  http_error : option string;
  json : exn + pyval
}.

Record environment : Type := mk_environment {
  (* answer of the server to a GET, given the history so far *)
  http_get : list event -> string -> exn + response;
  (* [datetime.now()] *)
  clock : list event -> datetime;
  (* does writing this file fail, and how *)
  disk_write : list event -> string -> string -> option exn;
  (* the longest time that [time.sleep] takes on this platform, in seconds *)
  max_sleep : Q
}.

(* ================================================================== *)
(** ** State and the monad of methods *)
(* ================================================================== *)

Record state : Type := mk_state {
  hidden_projects : list outcome;   (* self.hidden_projects *)
  scan_results : list outcome;      (* self.scan_results *)
  trace : list event                (* history of the outside world *)
}.

Inductive result (A : Type) : Type :=
| Returned (a : A)
| Raised (e : exn).
Arguments Returned {A} a.
Arguments Raised {A} e.

Definition M (A : Type) : Type := environment -> state -> result A * state.

Definition ret {A} (a : A) : M A := fun _ st => (Returned a, st).

Definition bind {A B} (m : M A) (k : A -> M B) : M B :=
  fun env st =>
    match m env st with
    | (Returned a, st') => k a env st'
    | (Raised e, st') => (Raised e, st')
    end.

Definition raise {A} (e : exn) : M A := fun _ st => (Raised e, st).

(** [try: m  except Exception as e: h e] *)
Definition try_except {A} (m : M A) (h : exn -> M A) : M A :=
  fun env st =>
    match m env st with
    | (Returned a, st') => (Returned a, st')
    | (Raised e, st') => h e env st'
    end.

Declare Scope monad_scope.
Delimit Scope monad_scope with monad.
Notation "x <- m ;; k" := (bind m (fun x => k))
  (at level 61, m at next level, right associativity) : monad_scope.
Notation "m ;; k" := (bind m (fun _ => k))
  (at level 61, right associativity) : monad_scope.
Open Scope monad_scope.

Definition get_state : M state := fun _ st => (Returned st, st).

Definition emit (e : event) : M unit :=
  fun _ st =>
    (Returned tt,
     mk_state (hidden_projects st) (scan_results st) (trace st ++ [e])).

Definition print (l : line) : M unit := emit (EPrint l).

(** What [time.sleep(seconds)] raises instead of sleeping: a ValueError
    on a negative length, an OverflowError on a length beyond what the
    clock of the platform holds. *)
Definition sleep_error (env : environment) (seconds : Q) : option exn :=
  if Qle_bool 0 seconds then
    if Qle_bool seconds (max_sleep env) then None
    else Some (mk_exn OverflowError "timestamp too large to convert to C _PyTime_t")
  else Some (mk_exn ValueError "sleep length must be non-negative").

(** [time.sleep(seconds)] *)
Definition sleep (seconds : Q) : M unit :=
  fun env st =>
    match sleep_error env seconds with
    | None => emit (ESleep seconds) env st
    | Some e => raise e env st
    end.

Definition now : M datetime :=
  fun env st =>
    (Returned (clock env (trace st)),
     mk_state (hidden_projects st) (scan_results st) (trace st ++ [ENow])).

(** [self.hidden_projects.append(r)] and [self.scan_results.append(r)] *)
Definition append_hidden_projects (r : outcome) : M unit :=
  fun _ st =>
    (Returned tt,
     mk_state (hidden_projects st ++ [r]) (scan_results st) (trace st)).

Definition append_scan_results (r : outcome) : M unit :=
  fun _ st =>
    (Returned tt,
     mk_state (hidden_projects st) (scan_results st ++ [r]) (trace st)).

(** [type(v).__name__] *)
Definition type_name (v : pyval) : string :=
  match v with
  | PyNone => "NoneType"
  | PyBool _ => "bool"
  | PyInt _ => "int"
  | PyStr _ => "str"
  | PyList _ => "list"
  | PyDict _ => "dict"
  end.

(** The AttributeError of [v.attr] on a value without that attribute. *)
Definition no_attribute (v : pyval) (attr : string) : exn :=
  mk_exn AttributeError
    ("'" ++ type_name v ++ "' object has no attribute '" ++ attr ++ "'")%string.

(** [v.get(k, default)]: only dicts have a [get] method. *)
Definition py_get (v : pyval) (k : string) (default : pyval) : M pyval :=
  match v with
  | PyDict kv => ret (dict_get kv k default)
  | _ => raise (no_attribute v "get")
  end.

(* ================================================================== *)
(** ** class BilibiliShowScanner *)
(* ================================================================== *)

Definition api_url : string :=
  "https://show.bilibili.com/api/ticket/project/getV2?id=".

(** The headers that [__init__] puts on the session, on top of the
    defaults of requests. *)
Definition session_headers : list (string * string) :=
  [ ("User-Agent",
     "Mozilla/5.0 (Windows NT 10.0; Win64; x64) AppleWebKit/537.36 (KHTML, like Gecko) Chrome/91.0.4472.124 Safari/537.36");
    ("Accept", "application/json, text/plain, */*");
    ("Accept-Language", "zh-CN,zh;q=0.9,en;q=0.8");
    ("Referer", "https://show.bilibili.com/") ].

(** [__init__]: both lists start empty. *)
Definition init (history : list event) : state :=
  mk_state [] [] history.

(** [self.session.get(url, timeout=10)] *)
Definition session_get (url : string) (timeout : Z) : M response :=
  fun env st =>
    let st' := mk_state (hidden_projects st) (scan_results st)
                 (trace st ++ [EGet url session_headers timeout]) in
    match http_get env (trace st) url with
    | inl e => (Raised e, st')
    | inr r => (Returned r, st')
    end.

(** [response.raise_for_status()] *)
Definition raise_for_status (r : response) : M unit :=
  match http_error r with
  | Some msg => raise (mk_exn HTTPError msg)
  | None => ret tt
  end.

(** [response.json()] *)
Definition response_json (r : response) : M pyval :=
  match json r with
  | inl e => raise e
  | inr v => ret v
  end.

Definition msg_unknown_error : string := "未知错误".
Definition msg_no_info : string := "无法获取项目信息".
Definition msg_unknown_project : string := "未知项目".

Definition get_project_info (project_id : Z) : M pyval :=
  try_except
    (let url := (api_url ++ str_of_int project_id)%string in
     response <- session_get url 10 ;;
     raise_for_status response ;;
     data <- response_json response ;;
     code <- py_get data "code" PyNone ;;
     if py_eq_int code 0 then
       py_get data "data" PyNone
     else
       message <- py_get data "message" (PyStr msg_unknown_error) ;;
       print (LApiError project_id message) ;;
       ret PyNone)
    (fun e =>
       if is_RequestException e then
         print (LRequestFailed project_id (exn_str e)) ;; ret PyNone
       else if is_JSONDecodeError e then
         print (LJsonFailed project_id (exn_str e)) ;; ret PyNone
       else
         print (LUnknownError project_id (exn_str e)) ;; ret PyNone).

Definition is_None (v : pyval) : bool :=
  match v with PyNone => true | _ => false end.

(** [result[k] = v] for the four keys that [scan_project] assigns. *)
Definition set_hide (r : outcome) (v : pyval) : outcome :=
  mk_outcome (id r) v (name r) (status r) (error r).
Definition set_name (r : outcome) (v : pyval) : outcome :=
  mk_outcome (id r) (hide r) v (status r) (error r).
Definition set_status (r : outcome) (v : string) : outcome :=
  mk_outcome (id r) (hide r) (name r) v (error r).
Definition set_error (r : outcome) (v : option string) : outcome :=
  mk_outcome (id r) (hide r) (name r) (status r) v.

Definition scan_project (project_id : Z) : M outcome :=
  let result := mk_outcome project_id PyNone PyNone "unknown" None in
  project_info <- get_project_info project_id ;;
  if is_None project_info then
    let result := set_status result "error" in
    let result := set_error result (Some msg_no_info) in
    ret result
  else
    hide_v <- py_get project_info "hide" PyNone ;;
    let result := set_hide result hide_v in
    name_v <- py_get project_info "name" (PyStr msg_unknown_project) ;;
    let result := set_name result name_v in
    let result := set_status result "success" in
    (if py_eq_int (hide result) 1 then append_hidden_projects result else ret tt) ;;
    ret result.

(** [for x in xs: body], threading the local variables [loc] of the loop. *)
Fixpoint for_each {A L} (xs : list A) (body : A -> L -> M L) (loc : L) : M L :=
  match xs with
  | [] => ret loc
  | x :: xs' => loc' <- body x loc ;; for_each xs' body loc'
  end.

(** The body of the loop of [scan_range]; the locals it updates are
    [scanned_count] and [error_count]. *)
Definition scan_body (end_id : Z) (interval : Q) (total_count : Z)
    (project_id : Z) (loc : Z * Z) : M (Z * Z) :=
  let '(scanned_count, error_count) := loc in
  let scanned_count := scanned_count + 1 in
  print (LProgress scanned_count total_count project_id) ;;
  result <- scan_project project_id ;;
  append_scan_results result ;;
  error_count <-
    (if String.eqb (status result) "error" then
       print (LError (error result)) ;; ret (error_count + 1)
     else if py_eq_int (hide result) 1 then
       print (LFoundHidden (name result)) ;; ret error_count
     else
       print (LHide (hide result)) ;; ret error_count) ;;
  (if project_id <? end_id then sleep interval else ret tt) ;;
  ret (scanned_count, error_count).

Definition scan_range (start_id end_id : Z) (interval : Q) : M unit :=
  print (LScanStart start_id end_id) ;;
  print (LInterval interval) ;;
  print LRule ;;
  let total_count := end_id - start_id + 1 in
  let scanned_count := 0 in
  let error_count := 0 in
  start_time <- now ;;
  loc <- for_each (range start_id (end_id + 1))
           (scan_body end_id interval total_count)
           (scanned_count, error_count) ;;
  let '(scanned_count, error_count) := loc in
  end_time <- now ;;
  print LRule ;;
  print LDone ;;
  print (LDuration start_time end_time) ;;
  print (LTotal total_count) ;;
  print (LSuccessCount (total_count - error_count)) ;;
  print (LErrorCount error_count) ;;
  st <- get_state ;;
  print (LHiddenCount (Z.of_nat (List.length (hidden_projects st)))) ;;
  match hidden_projects st with
  | [] => ret tt
  | _ =>
      print LHiddenHeader ;;
      for_each (hidden_projects st)
        (fun project _ => print (LHiddenItem (id project) (name project)))
        tt
  end.

(* ================================================================== *)
(** ** json.dumps(obj, ensure_ascii=False, indent=2) *)
(* ================================================================== *)

Module Json.

Local Open Scope string_scope.

Definition dquote : ascii := "034"%char.
Definition backslash : ascii := "092"%char.
Definition newline : ascii := "010"%char.

(** One lower-case hexadecimal digit. *)
Definition hex_digit (n : N) : ascii :=
  if (n <? 10)%N then ascii_of_N (48 + n) else ascii_of_N (87 + n).

(** The replacement of one character by [encode_basestring]: the quote, the
    backslash and the control characters below 0x20 are escaped, every
    other character stands for itself. *)
Definition escape_char (c : ascii) : string :=
  let n := N_of_ascii c in
  if (n =? 34)%N then String backslash (String dquote "")
  else if (n =? 92)%N then String backslash (String backslash "")
  else if (n =? 8)%N then String backslash "b"
  else if (n =? 12)%N then String backslash "f"
  else if (n =? 10)%N then String backslash "n"
  else if (n =? 13)%N then String backslash "r"
  else if (n =? 9)%N then String backslash "t"
  else if (n <? 32)%N then
    String backslash
      (String "u" (String "0" (String "0"
        (String (hex_digit (n / 16)) (String (hex_digit (n mod 16)) "")))))
  else String c "".

Fixpoint escape (s : string) : string :=
  match s with
  | EmptyString => ""
  | String c s' => escape_char c ++ escape s'
  end.

Definition encode_basestring (s : string) : string :=
  String dquote (escape s ++ String dquote "").

Fixpoint spaces (n : nat) : string :=
  match n with
  | O => ""
  | S n' => String " " (spaces n')
  end.

(** ['\n' + _indent * level], with [_indent] two spaces. *)
Definition newline_indent (level : nat) : string :=
  String newline (spaces (2 * level)).

(** The encoder, at nesting depth [level].  A container that is not empty
    puts each item on a line of its own, one level deeper, items separated
    by a comma, and closes on a line at its own level. *)
Fixpoint encode (level : nat) (v : pyval) {struct v} : string :=
  match v with
  | PyNone => "null"
  | PyBool true => "true"
  | PyBool false => "false"
  | PyInt z => str_of_int z
  | PyStr s => encode_basestring s
  | PyList [] => "[]"
  | PyList (x :: l) =>
      "[" ++ newline_indent (S level) ++ encode (S level) x ++
      (fix items (l : list pyval) : string :=
         match l with
         | [] => ""
         | y :: l' =>
             "," ++ newline_indent (S level) ++ encode (S level) y ++ items l'
         end) l ++
      newline_indent level ++ "]"
  | PyDict [] => "{}"
  | PyDict ((k, x) :: kv) =>
      "{" ++ newline_indent (S level) ++
      encode_basestring k ++ ": " ++ encode (S level) x ++
      (fix members (kv : list (string * pyval)) : string :=
         match kv with
         | [] => ""
         | (k', y) :: kv' =>
             "," ++ newline_indent (S level) ++
             encode_basestring k' ++ ": " ++ encode (S level) y ++ members kv'
         end) kv ++
      newline_indent level ++ "}"
  end.

Definition dumps (v : pyval) : string := encode 0 v.

(* ------------------------------------------------------------------ *)
(** *** json.loads *)
(* ------------------------------------------------------------------ *)

Definition is_ws (c : ascii) : bool :=
  let n := N_of_ascii c in
  ((n =? 32) || (n =? 9) || (n =? 10) || (n =? 13))%N.

Fixpoint skip_ws (s : string) : string :=
  match s with
  | EmptyString => ""
  | String c s' => if is_ws c then skip_ws s' else s
  end.

Definition is_digit (c : ascii) : bool :=
  let n := N_of_ascii c in ((48 <=? n) && (n <=? 57))%N.

(** The longest prefix of digits, and what follows it. *)
Fixpoint span_digits (s : string) : string * string :=
  match s with
  | EmptyString => ("", "")
  | String c s' =>
      if is_digit c then
        let '(ds, rest) := span_digits s' in (String c ds, rest)
      else ("", s)
  end.

Definition hex_value (c : ascii) : option N :=
  let n := N_of_ascii c in
  if ((48 <=? n) && (n <=? 57))%N then Some (n - 48)%N
  else if ((97 <=? n) && (n <=? 102))%N then Some (n - 87)%N
  else if ((65 <=? n) && (n <=? 70))%N then Some (n - 55)%N
  else None.

(** The four hexadecimal digits of a [\uXXXX] escape. *)
Definition hex4 (s : string) : option (N * string) :=
  match s with
  | String a (String b (String c (String d rest))) =>
      match hex_value a, hex_value b, hex_value c, hex_value d with
      | Some x, Some y, Some z, Some w =>
          Some (((x * 16 + y) * 16 + z) * 16 + w, rest)%N
      | _, _, _, _ => None
      end
  | _ => None
  end.

(** The UTF-8 bytes of a code point; a surrogate, which UTF-8 proper
    leaves out, gets the three bytes of this form as well. *)
Definition utf8_encode (cp : N) : string :=
  (if cp <? 128 then String (ascii_of_N cp) ""
   else if cp <? 2048 then
     String (ascii_of_N (192 + cp / 64))
       (String (ascii_of_N (128 + cp mod 64)) "")
   else if cp <? 65536 then
     String (ascii_of_N (224 + cp / 4096))
       (String (ascii_of_N (128 + (cp / 64) mod 64))
          (String (ascii_of_N (128 + cp mod 64)) ""))
   else
     String (ascii_of_N (240 + cp / 262144))
       (String (ascii_of_N (128 + (cp / 4096) mod 64))
          (String (ascii_of_N (128 + (cp / 64) mod 64))
             (String (ascii_of_N (128 + cp mod 64)) ""))))%N.

Definition is_high_surrogate (u : N) : bool := ((55296 <=? u) && (u <=? 56319))%N.
Definition is_low_surrogate (u : N) : bool := ((56320 <=? u) && (u <=? 57343))%N.

(** The character that a one-letter escape stands for. *)
Definition simple_escape (e : ascii) : option ascii :=
  let n := N_of_ascii e in
  (if n =? 34 then Some dquote
   else if n =? 92 then Some backslash
   else if n =? 47 then Some "/"%char
   else if n =? 98 then Some "008"%char
   else if n =? 102 then Some "012"%char
   else if n =? 110 then Some "010"%char
   else if n =? 114 then Some "013"%char
   else if n =? 116 then Some "009"%char
   else None)%N.

Definition prepend (p : string) (r : option (string * string)) : option (string * string) :=
  match r with
  | Some (s, rest) => Some (p ++ s, rest)
  | None => None
  end.

(** [scanstring], strict: the input starts just after the opening quote; the
    result is the decoded string and what follows the closing quote.  A
    high surrogate joins the low surrogate of the escape that follows it;
    a surrogate that is not part of such a pair stays in the str as it
    is. *)
Fixpoint scanstring (fuel : nat) (s : string) : option (string * string) :=
  match fuel with
  | O => None
  | S fuel' =>
      match s with
      | EmptyString => None
      | String c s' =>
          if Ascii.eqb c dquote then Some ("", s')
          else if Ascii.eqb c backslash then
            match s' with
            | EmptyString => None
            | String e s'' =>
                match simple_escape e with
                | Some c' => prepend (String c' "") (scanstring fuel' s'')
                | None =>
                    if Ascii.eqb e "u" then
                      match hex4 s'' with
                      | Some (u, s3) =>
                          if is_high_surrogate u then
                            match s3 with
                            | String b1 (String b2 s4) =>
                                if Ascii.eqb b1 backslash && Ascii.eqb b2 "u" then
                                  match hex4 s4 with
                                  | Some (u2, s5) =>
                                      if is_low_surrogate u2 then
                                        prepend
                                          (utf8_encode
                                             (65536 + (u - 55296) * 1024 + (u2 - 56320))%N)
                                          (scanstring fuel' s5)
                                      else prepend (utf8_encode u) (scanstring fuel' s3)
                                  | None => None
                                  end
                                else prepend (utf8_encode u) (scanstring fuel' s3)
                            | _ => prepend (utf8_encode u) (scanstring fuel' s3)
                            end
                          else prepend (utf8_encode u) (scanstring fuel' s3)
                      | None => None
                      end
                    else None
                end
            end
          else if (N_of_ascii c <? 32)%N then None
          else prepend (String c "") (scanstring fuel' s')
      end
  end.

(** [s.startswith(p)], giving what follows [p]. *)
Fixpoint strip_prefix (p s : string) : option string :=
  match p, s with
  | EmptyString, _ => Some s
  | String a p', String b s' => if Ascii.eqb a b then strip_prefix p' s' else None
  | String _ _, EmptyString => None
  end.

(** Does a fraction or an exponent follow the integer part?  Then the token
    is a float, which the model does not have. *)
Definition float_follows (s : string) : bool :=
  match s with
  | String c (String d rest) =>
      if Ascii.eqb c "." then is_digit d
      else if Ascii.eqb c "e" || Ascii.eqb c "E" then
        if is_digit d then true
        else if Ascii.eqb d "+" || Ascii.eqb d "-" then
          match rest with
          | String d' _ => is_digit d'
          | EmptyString => false
          end
        else false
      else false
  | _ => false
  end.

(** A number: an optional minus, then [0] or a digit from 1 to 9 followed by
    digits. *)
Definition parse_number (s : string) : option (pyval * string) :=
  let '(sign, s1) :=
    match s with
    | String c s' => if Ascii.eqb c "-" then ("-", s') else ("", s)
    | EmptyString => ("", s)
    end in
  match s1 with
  | String d s2 =>
      if is_digit d then
        let '(ds, rest) :=
          if Ascii.eqb d "0" then ("", s2) else span_digits s2 in
        if float_follows rest then None
        else
          match NilZero.int_of_string (sign ++ String d ds) with
          | Some i => Some (PyInt (Z.of_int i), rest)
          | None => None
          end
      else None
  | EmptyString => None
  end.

(** [dict(pairs)]: a key that comes again keeps its place and takes the new
    value. *)
Fixpoint dict_update (kv : list (string * pyval)) (k : string) (v : pyval)
  : list (string * pyval) :=
  match kv with
  | [] => [(k, v)]
  | (k', v') :: kv' =>
      if String.eqb k' k then (k', v) :: kv' else (k', v') :: dict_update kv' k v
  end.

Definition dict_of_pairs (pairs : list (string * pyval)) : list (string * pyval) :=
  fold_left (fun kv p => dict_update kv (fst p) (snd p)) pairs [].

(** The scanner.  [parse_value] reads one value; [parse_items] reads the
    items of an array up to and including the closing bracket, and
    [parse_members] the pairs of an object up to and including the closing
    brace.  The recursion is on [fuel]; [loads] starts with more than twice
    the length of the text. *)
Fixpoint parse_value (fuel : nat) (s : string) {struct fuel} : option (pyval * string) :=
  match fuel with
  | O => None
  | S fuel' =>
      match s with
      | EmptyString => None
      | String c s' =>
          if Ascii.eqb c dquote then
            match scanstring fuel' s' with
            | Some (str, rest) => Some (PyStr str, rest)
            | None => None
            end
          else if Ascii.eqb c "{" then
            let s1 := skip_ws s' in
            match strip_prefix "}" s1 with
            | Some rest => Some (PyDict [], rest)
            | None =>
                match parse_members fuel' s1 with
                | Some (pairs, rest) => Some (PyDict (dict_of_pairs pairs), rest)
                | None => None
                end
            end
          else if Ascii.eqb c "[" then
            let s1 := skip_ws s' in
            match strip_prefix "]" s1 with
            | Some rest => Some (PyList [], rest)
            | None =>
                match parse_items fuel' s1 with
                | Some (l, rest) => Some (PyList l, rest)
                | None => None
                end
            end
          else if Ascii.eqb c "n" then
            option_map (fun rest => (PyNone, rest)) (strip_prefix "null" s)
          else if Ascii.eqb c "t" then
            option_map (fun rest => (PyBool true, rest)) (strip_prefix "true" s)
          else if Ascii.eqb c "f" then
            option_map (fun rest => (PyBool false, rest)) (strip_prefix "false" s)
          else parse_number s
      end
  end

with parse_items (fuel : nat) (s : string) {struct fuel} : option (list pyval * string) :=
  match fuel with
  | O => None
  | S fuel' =>
      match parse_value fuel' s with
      | Some (v, s1) =>
          match skip_ws s1 with
          | String c s2 =>
              if Ascii.eqb c "," then
                match parse_items fuel' (skip_ws s2) with
                | Some (l, rest) => Some (v :: l, rest)
                | None => None
                end
              else if Ascii.eqb c "]" then Some ([v], s2)
              else None
          | EmptyString => None
          end
      | None => None
      end
  end

with parse_members (fuel : nat) (s : string) {struct fuel}
  : option (list (string * pyval) * string) :=
  match fuel with
  | O => None
  | S fuel' =>
      match s with
      | String q s1 =>
          if Ascii.eqb q dquote then
            match scanstring fuel' s1 with
            | Some (k, s2) =>
                match skip_ws s2 with
                | String c s3 =>
                    if Ascii.eqb c ":" then
                      match parse_value fuel' (skip_ws s3) with
                      | Some (v, s4) =>
                          match skip_ws s4 with
                          | String c' s5 =>
                              if Ascii.eqb c' "," then
                                match parse_members fuel' (skip_ws s5) with
                                | Some (kv, rest) => Some ((k, v) :: kv, rest)
                                | None => None
                                end
                              else if Ascii.eqb c' "}" then Some ([(k, v)], s5)
                              else None
                          | EmptyString => None
                          end
                      | None => None
                      end
                    else None
                | EmptyString => None
                end
            | None => None
            end
          else None
      | EmptyString => None
      end
  end.

(** [json.loads(s)]: one value, with nothing but white space around it. *)
Definition loads (s : string) : option pyval :=
  match parse_value (S (2 * String.length s)) (skip_ws s) with
  | Some (v, rest) =>
      match skip_ws rest with
      | EmptyString => Some v
      | String _ _ => None
      end
  | None => None
  end.

End Json.

(* ================================================================== *)
(** ** save_results *)
(* ================================================================== *)

(** The dict behind an [outcome], keys in the order of the dict literal of
    [scan_project]. *)
Definition outcome_dict (r : outcome) : pyval :=
  PyDict
    [ ("id", PyInt (id r));
      ("hide", hide r);
      ("name", name r);
      ("status", PyStr (status r));
      ("error", match error r with Some e => PyStr e | None => PyNone end) ].

(** Does the text hold a surrogate: the byte 0xED followed by a byte from
    0xA0 to 0xBF. *)
Fixpoint has_surrogate (s : string) : bool :=
  match s with
  | String c (String d _ as s') =>
      ((N_of_ascii c =? 237) && (160 <=? N_of_ascii d) && (N_of_ascii d <=? 191))%N
      || has_surrogate s'
  | _ => false
  end.

(** How the write of [content] to [filename] fails, if it does: the disk
    may refuse the file; and the codec of a file opened with
    [encoding='utf-8'] does not encode a surrogate, so a text that holds
    one raises UnicodeEncodeError on its way to the file. *)
Definition write_failure (env : environment) (tr : list event)
    (filename content : string) : option exn :=
  match disk_write env tr filename content with
  | Some e => Some e
  | None =>
      if has_surrogate content then
        Some (mk_exn UnicodeEncodeError
                "'utf-8' codec can't encode character: surrogates not allowed")
      else None
  end.

(** [with open(filename, 'w', encoding='utf-8') as f: f.write(content)].
    A write that fails leaves no complete text in the file. *)
Definition write_file (filename content : string) : M unit :=
  fun env st =>
    let failure := write_failure env (trace st) filename content in
    let st' := mk_state (hidden_projects st) (scan_results st)
                 (trace st ++ [EWriteFile filename content failure]) in
    match failure with
    | Some e => (Raised e, st')
    | None => (Returned tt, st')
    end.

(** The dict [results_data] of [save_results]. *)
Definition results_data (scan_time : datetime) (st : state) : pyval :=
  PyDict
    [ ("scan_time", PyStr (isoformat scan_time));
      ("total_scanned", PyInt (Z.of_nat (List.length (scan_results st))));
      ("hidden_count", PyInt (Z.of_nat (List.length (hidden_projects st))));
      ("hidden_projects", PyList (map outcome_dict (hidden_projects st)));
      ("all_results", PyList (map outcome_dict (scan_results st))) ].

Definition save_results (filename : option string) : M unit :=
  filename <-
    match filename with
    | None =>
        timestamp <- now ;;
        ret ("bilibili_scan_results_" ++ strftime_compact timestamp ++ ".json")%string
    | Some f => ret f
    end ;;
  scan_time <- now ;;
  st <- get_state ;;
  let results_data := results_data scan_time st in
  try_except
    (write_file filename (Json.dumps results_data) ;;
     print (LSaved filename))
    (fun e => print (LSaveFailed (exn_str e))).

(** What a reader finds in [filename] after the history [tr]: the content of
    the last write to it, when that write went through. *)
Definition file_content (tr : list event) (filename : string) : option string :=
  fold_left
    (fun found e =>
       match e with
       | EWriteFile f c failure =>
           if String.eqb f filename then
             match failure with
             | None => Some c
             | Some _ => None
             end
           else found
       | _ => found
       end)
    tr None.

(* ================================================================== *)
(** ** Vocabulary of the statements *)
(* ================================================================== *)

(** The state [st] after the events [es]. *)
Definition after (st : state) (es : list event) : state :=
  mk_state (hidden_projects st) (scan_results st) (trace st ++ es).

Definition url_of (project_id : Z) : string :=
  (api_url ++ str_of_int project_id)%string.

(** The request that [get_project_info] sends for [project_id]. *)
Definition request (project_id : Z) : event :=
  EGet (url_of project_id) session_headers 10.

(** The answer of the server to the request for [project_id] in state [st]. *)
Definition answer (env : environment) (st : state) (project_id : Z) : exn + response :=
  http_get env (trace st) (url_of project_id).

Definition is_dict (v : pyval) : bool :=
  match v with PyDict _ => true | _ => false end.

(** The ways a fetch fails, one per path of [get_project_info] that returns
    [None]. *)
Inductive fetch_failure : exn + response -> Prop :=
| Transport_failure (e : exn) :
    (* session.get raised: DNS, connection reset, timeout, ... *)
    fetch_failure (inl e)
| Http_status (msg : string) (j : exn + pyval) :
    (* raise_for_status raised *)
    fetch_failure (inr (mk_response (Some msg) j))
| Undecodable_body (e : exn) :
    (* response.json() raised *)
    fetch_failure (inr (mk_response None (inl e)))
| Body_not_object (v : pyval) :
    is_dict v = false ->
    fetch_failure (inr (mk_response None (inr v)))
| Application_error (kv : list (string * pyval)) :
    (* the code of the payload is not 0 *)
    py_eq_int (dict_get kv "code" PyNone) 0 = false ->
    fetch_failure (inr (mk_response None (inr (PyDict kv))))
| No_data (kv : list (string * pyval)) :
    (* code 0, and no data or a null data *)
    py_eq_int (dict_get kv "code" PyNone) 0 = true ->
    dict_get kv "data" PyNone = PyNone ->
    fetch_failure (inr (mk_response None (inr (PyDict kv)))).

(** A well-formed payload: an object with code 0 whose data is the object
    [d]. *)
Inductive well_formed_payload : exn + response -> list (string * pyval) -> Prop :=
| Well_formed (kv d : list (string * pyval)) :
    py_eq_int (dict_get kv "code" PyNone) 0 = true ->
    dict_get kv "data" PyNone = PyDict d ->
    well_formed_payload (inr (mk_response None (inr (PyDict kv)))) d.

(** The remaining case: code 0 and a data that is neither null nor an
    object. *)
Inductive malformed_data : exn + response -> pyval -> Prop :=
| Malformed (kv : list (string * pyval)) (v : pyval) :
    py_eq_int (dict_get kv "code" PyNone) 0 = true ->
    dict_get kv "data" PyNone = v ->
    is_None v = false ->
    is_dict v = false ->
    malformed_data (inr (mk_response None (inr (PyDict kv)))) v.

(** The outcome of a failed fetch. *)
Definition error_outcome (project_id : Z) : outcome :=
  mk_outcome project_id PyNone PyNone "error" (Some msg_no_info).

(** The outcome of a well-formed payload with data [d]. *)
Definition success_outcome (project_id : Z) (d : list (string * pyval)) : outcome :=
  mk_outcome project_id (dict_get d "hide" PyNone)
    (dict_get d "name" (PyStr msg_unknown_project)) "success" None.

(** The results that a scan of [env] can append: the error result, or the
    success result of a well-formed payload that the server sent for that
    ID. *)
Definition produced (env : environment) (r : outcome) : Prop :=
  r = error_outcome (id r)
  \/ exists tr d,
       well_formed_payload (http_get env tr (url_of (id r))) d
       /\ r = success_outcome (id r) d.

(** The statuses that a finished result can carry. *)
Definition valid_status (r : outcome) : Prop :=
  status r = "success" \/ status r = "error".

(** An outcome counts as hidden when its status is success and its hide
    equals 1. *)
Definition is_hidden (r : outcome) : bool :=
  String.eqb (status r) "success" && py_eq_int (hide r) 1.

(** The invariant that ties the two lists of the scanner. *)
Definition consistent (st : state) : Prop :=
  hidden_projects st = filter is_hidden (scan_results st).

(** Requests and delays of a history. *)
Definition is_io (e : event) : bool :=
  match e with
  | EGet _ _ _ | ESleep _ => true
  | _ => false
  end.

Definition is_get (e : event) : bool :=
  match e with EGet _ _ _ => true | _ => false end.


(** The requests and delays of a scan that went from [first] to [last]: a
    delay after every request but the last. *)
Definition paced (interval : Q) (first last : Z) : list event :=
  flat_map (fun i => [request i; ESleep interval]) (range first last)
  ++ [request last].

(** How a scan from [first] that raised at [last] stopped, and the IDs of
    the results it had appended by then: on a malformed data for [last],
    before anything was appended for it; or on the sleep that follows the
    result of [last], [time.sleep] turning the interval down. *)
Definition stopped (env : environment) (interval : Q) (first last end_id : Z)
    (ids : list Z) : Prop :=
  ((exists tr v, malformed_data (http_get env tr (url_of last)) v)
   /\ ids = range first last)
  \/ (sleep_error env interval <> None /\ last < end_id
      /\ ids = range first (last + 1)).

(** A server never sends a malformed data: every answer is a failure or a
    well-formed payload. *)
Definition never_malformed (env : environment) : Prop :=
  forall tr url v, ~ malformed_data (http_get env tr url) v.

(** The states of a scanner in use: built by [__init__], then taken through
    calls of [scan_range] and [save_results], while the world may log
    events of its own between the calls. *)
Inductive scanner_state (env : environment) : state -> Prop :=
| Fresh (history : list event) :
    scanner_state env (init history)
| After_scan_range (st : state) (start_id end_id : Z) (interval : Q) :
    scanner_state env st ->
    scanner_state env (snd (scan_range start_id end_id interval env st))
| After_save_results (st : state) (filename : option string) :
    scanner_state env st ->
    scanner_state env (snd (save_results filename env st))
| Meanwhile (st : state) (es : list event) :
    scanner_state env st ->
    scanner_state env (after st es).

(** The part of [scan_range] up to the end of the first [k] turns of its
    loop: the banner, the start time, and the loop over the first [k] IDs.
    It returns what the rest of the method needs, the start time and the
    two counters. *)
Definition scan_range_upto (k : nat) (start_id end_id : Z) (interval : Q)
  : M (datetime * (Z * Z)) :=
  print (LScanStart start_id end_id) ;;
  print (LInterval interval) ;;
  print LRule ;;
  let total_count := end_id - start_id + 1 in
  start_time <- now ;;
  loc <- for_each (firstn k (range start_id (end_id + 1)))
           (scan_body end_id interval total_count) (0, 0) ;;
  ret (start_time, loc).

(** The rest of [scan_range] from there: the remaining turns and the
    summary. *)
Definition scan_range_from (k : nat) (start_id end_id : Z) (interval : Q)
    (seen : datetime * (Z * Z)) : M unit :=
  let total_count := end_id - start_id + 1 in
  let start_time := fst seen in
  loc <- for_each (skipn k (range start_id (end_id + 1)))
           (scan_body end_id interval total_count) (snd seen) ;;
  let '(scanned_count, error_count) := loc in
  end_time <- now ;;
  print LRule ;;
  print LDone ;;
  print (LDuration start_time end_time) ;;
  print (LTotal total_count) ;;
  print (LSuccessCount (total_count - error_count)) ;;
  print (LErrorCount error_count) ;;
  st <- get_state ;;
  print (LHiddenCount (Z.of_nat (List.length (hidden_projects st)))) ;;
  match hidden_projects st with
  | [] => ret tt
  | _ =>
      print LHiddenHeader ;;
      for_each (hidden_projects st)
        (fun project _ => print (LHiddenItem (id project) (name project)))
        tt
  end.

(** A turn of the loop in two halves.  The first half prints the progress
    line and calls [scan_project], whose last step may append the result
    to the hidden projects; the second half appends the result to the log,
    prints it and sleeps. *)
Definition scan_turn_begin (total_count project_id : Z) (loc : Z * Z) : M outcome :=
  print (LProgress (fst loc + 1) total_count project_id) ;;
  scan_project project_id.

Definition scan_turn_end (end_id : Z) (interval : Q) (project_id : Z)
    (loc : Z * Z) (result : outcome) : M (Z * Z) :=
  let '(scanned_count, error_count) := loc in
  let scanned_count := scanned_count + 1 in
  append_scan_results result ;;
  error_count <-
    (if String.eqb (status result) "error" then
       print (LError (error result)) ;; ret (error_count + 1)
     else if py_eq_int (hide result) 1 then
       print (LFoundHidden (name result)) ;; ret error_count
     else
       print (LHide (hide result)) ;; ret error_count) ;;
  (if project_id <? end_id then sleep interval else ret tt) ;;
  ret (scanned_count, error_count).

(** The part of [scan_range] up to the return of [scan_project] in the
    turn that follows the first [k]: the result in hand is not in the log
    yet.  And the rest of [scan_range] from there. *)
Definition scan_range_into (k : nat) (start_id end_id : Z) (interval : Q)
  : M (datetime * (Z * Z) * outcome) :=
  seen <- scan_range_upto k start_id end_id interval ;;
  result <- scan_turn_begin (end_id - start_id + 1) (start_id + Z.of_nat k)
              (snd seen) ;;
  ret (seen, result).

Definition scan_range_beyond (k : nat) (start_id end_id : Z) (interval : Q)
    (in_hand : datetime * (Z * Z) * outcome) : M unit :=
  let '(seen, result) := in_hand in
  loc <- scan_turn_end end_id interval (start_id + Z.of_nat k) (snd seen) result ;;
  scan_range_from (S k) start_id end_id interval (fst seen, loc).

(** What the hidden projects hold: results with status success and a hide
    equal to 1, so neither an error result nor one without a hide. *)
Definition all_hidden (rs : list outcome) : Prop :=
  Forall (fun r => status r = "success" /\ py_eq_int (hide r) 1 = true
                   /\ status r <> "error" /\ hide r <> PyNone) rs.

(** [s in t] for strings. *)
Fixpoint contains (s t : string) : bool :=
  if String.prefix s t then true
  else match t with
       | EmptyString => false
       | String _ t' => contains s t'
       end.

(** The reading of the error text that would show the message of the
    server: the scan of [project_id] returns an error result whose text
    contains [message]. *)
Definition reports_server_message (env : environment) (st : state)
    (project_id : Z) (message : string) : Prop :=
  exists r st' e,
    scan_project project_id env st = (Returned r, st')
    /\ status r = "error"
    /\ error r = Some e
    /\ contains message e = true.

(** The name of the file that [save_results filename] writes in state
    [st]: the given one, or one made from the current time. *)
Definition saved_name (env : environment) (st : state) (filename : option string)
  : string :=
  match filename with
  | Some f => f
  | None =>
      ("bilibili_scan_results_" ++ strftime_compact (clock env (trace st))
       ++ ".json")%string
  end.

(** [v[k]] for a dict [v], when the key is there. *)
Definition py_item (v : pyval) (k : string) : option pyval :=
  match v with
  | PyDict kv => dict_lookup kv k
  | _ => None
  end.

(** Reading an outcome back from the dict of a document. *)
Definition outcome_of_dict (v : pyval) : option outcome :=
  match py_item v "id", py_item v "hide", py_item v "name",
        py_item v "status", py_item v "error" with
  | Some (PyInt i), Some h, Some n, Some (PyStr s), Some e =>
      match e with
      | PyNone => Some (mk_outcome i h n s None)
      | PyStr msg => Some (mk_outcome i h n s (Some msg))
      | _ => None
      end
  | _, _, _, _, _ => None
  end.

(* ================================================================== *)
(** ** Vocabulary of the statements about JSON text *)
(* ================================================================== *)

(** A value that Python can hold: the keys of each dict inside it are
    pairwise distinct. *)
Fixpoint genuine (v : pyval) : Prop :=
  match v with
  | PyList l =>
      (fix all (l : list pyval) : Prop :=
         match l with
         | [] => True
         | x :: l' => genuine x /\ all l'
         end) l
  | PyDict kv =>
      NoDup (map fst kv) /\
      (fix all (kv : list (string * pyval)) : Prop :=
         match kv with
         | [] => True
         | (_, x) :: kv' => genuine x /\ all kv'
         end) kv
  | _ => True
  end.

Definition genuine_outcome (r : outcome) : Prop :=
  genuine (hide r) /\ genuine (name r).

(** Every body that the server sends parses to a genuine value. *)
Definition genuine_server (env : environment) : Prop :=
  forall tr url r v,
    http_get env tr url = inr r -> json r = inr v -> genuine v.

(** What may follow a value in the text of [Json.encode]: nothing, a comma,
    or a line break. *)
Definition closes (rest : string) : Prop :=
  match rest with
  | EmptyString => True
  | String c _ => c = ","%char \/ c = Json.newline
  end.

(** The first character of the text of a value: not white space, not a
    closing bracket. *)
Definition opens (s : string) : Prop :=
  match s with
  | EmptyString => False
  | String c _ => Json.is_ws c = false /\ Ascii.eqb "]" c = false
  end.

(** Decimal numerals without a leading zero. *)
Definition leads_nonzero (d : Decimal.uint) : Prop :=
  match d with
  | Decimal.Nil | Decimal.D0 _ => False
  | _ => True
  end.

(** The text of the items of a list after the first, and of the members of
    a dict after the first, as [Json.encode] writes them at depth
    [level]. *)
Fixpoint encode_items (level : nat) (l : list pyval) : string :=
  match l with
  | [] => ""
  | y :: l' =>
      ("," ++ Json.newline_indent level ++ Json.encode level y
       ++ encode_items level l')%string
  end.

Fixpoint encode_members (level : nat) (kv : list (string * pyval)) : string :=
  match kv with
  | [] => ""
  | (k, y) :: kv' =>
      ("," ++ Json.newline_indent level ++ Json.encode_basestring k ++ ": "
       ++ Json.encode level y ++ encode_members level kv')%string
  end.

(** The scanner reads the text of [v] back, whatever the depth and
    whatever closes the value. *)
Definition reads_back (v : pyval) : Prop :=
  forall level rest fuel,
    closes rest ->
    (2 * String.length (Json.encode level v ++ rest) < fuel)%nat ->
    Json.parse_value fuel (Json.encode level v ++ rest)%string = Some (v, rest).

(* ================================================================== *)
(** ** Sample environments *)
(* ================================================================== *)

Definition sample_clock (tr : list event) : datetime :=
  mk_datetime "2024-05-01T12:00:00" "20240501_120000".

(** An environment whose server answers by URL alone, with a fixed clock and
    a disk that takes every write. *)
Definition env_of (server : string -> exn + response) : environment :=
  mk_environment (fun _ url => server url) sample_clock (fun _ _ _ => None)
    9223372036.

(** A body that parsed to [v], behind a status that [raise_for_status]
    accepts. *)
Definition ok_body (v : pyval) : exn + response :=
  inr (mk_response None (inr v)).

Definition project_body (hide_v : Z) (name_v : string) : pyval :=
  PyDict [("code", PyInt 0);
          ("data", PyDict [("hide", PyInt hide_v); ("name", PyStr name_v)])].

(** Project 100 is hidden, the request for 101 times out, project 102 is
    not hidden. *)
Definition server_sample (url : string) : exn + response :=
  if String.eqb url (url_of 100) then ok_body (project_body 1 "A")
  else if String.eqb url (url_of 101) then inl (mk_exn Timeout "Read timed out.")
  else ok_body (project_body 0 "B").

(** Every request times out. *)
Definition server_timeout (url : string) : exn + response :=
  inl (mk_exn Timeout "Read timed out.").

(** [{"code": 10002, "message": "not found"}] for every project. *)
Definition server_not_found (url : string) : exn + response :=
  ok_body (PyDict [("code", PyInt 10002); ("message", PyStr "not found")]).

(** As [server_sample], but the answer for 101 is
    [{"code": 0, "data": "oops"}]: code 0 with a data that is a string. *)
Definition server_malformed (url : string) : exn + response :=
  if String.eqb url (url_of 101) then
    ok_body (PyDict [("code", PyInt 0); ("data", PyStr "oops")])
  else server_sample url.

(** A payload whose data has a name and no hide. *)
Definition server_no_hide (url : string) : exn + response :=
  ok_body (PyDict [("code", PyInt 0); ("data", PyDict [("name", PyStr "C")])]).

(** The log after the scan of 100..102 against [server_sample]. *)
Definition sample_results : list outcome :=
  [ mk_outcome 100 (PyInt 1) (PyStr "A") "success" None;
    mk_outcome 101 PyNone PyNone "error" (Some msg_no_info);
    mk_outcome 102 (PyInt 0) (PyStr "B") "success" None ].

(** The str that holds the one code point U+D800, a high surrogate with
    no low surrogate after it. *)
Definition lone_surrogate : string :=
  String (ascii_of_N 237) (String (ascii_of_N 160) (String (ascii_of_N 128) "")).

(** The text [{"code": 0, "data": {"hide": 0, "name": "\ud800"}}] of a
    body, and what [response.json()] makes of it. *)
Definition surrogate_text : string :=
  let q := String Json.dquote "" in
  ("{" ++ q ++ "code" ++ q ++ ": 0, " ++ q ++ "data" ++ q ++ ": {"
   ++ q ++ "hide" ++ q ++ ": 0, " ++ q ++ "name" ++ q ++ ": "
   ++ q ++ "\ud800" ++ q ++ "}}")%string.

Definition surrogate_body : pyval :=
  PyDict [("code", PyInt 0);
          ("data", PyDict [("hide", PyInt 0); ("name", PyStr lone_surrogate)])].

(** Every project carries that name. *)
Definition server_surrogate (url : string) : exn + response :=
  ok_body surrogate_body.

(* ================================================================== *)
(** * Properties *)
(* ================================================================== *)

(** ** Running the monad *)

Lemma bind_run {A B} (m : M A) (k : A -> M B) env st :
  bind m k env st =
  match m env st with
  | (Returned a, st') => k a env st'
  | (Raised e, st') => (Raised e, st')
  end.
Proof. reflexivity. Qed.

Lemma print_run l env st : print l env st = (Returned tt, after st [EPrint l]).
Proof. reflexivity. Qed.

Lemma sleep_run q env st :
  sleep_error env q = None -> sleep q env st = (Returned tt, after st [ESleep q]).
Proof. intros H. unfold sleep. now rewrite H. Qed.

Lemma sleep_raises q env st e :
  sleep_error env q = Some e -> sleep q env st = (Raised e, st).
Proof. intros H. unfold sleep. now rewrite H. Qed.

Lemma now_run env st : now env st = (Returned (clock env (trace st)), after st [ENow]).
Proof. reflexivity. Qed.

Lemma ret_run {A} (a : A) env st : ret a env st = (Returned a, st).
Proof. reflexivity. Qed.

Lemma append_scan_results_run r env st :
  append_scan_results r env st
  = (Returned tt, mk_state (hidden_projects st) (scan_results st ++ [r]) (trace st)).
Proof. reflexivity. Qed.

Ltac step :=
  rewrite bind_run;
  first [ rewrite print_run | rewrite now_run | rewrite ret_run
        | rewrite append_scan_results_run ];
  cbv beta iota.

Lemma after_after st es es' : after (after st es) es' = after st (es ++ es').
Proof. unfold after; simpl. now rewrite app_assoc. Qed.

Lemma after_nil st : after st [] = st.
Proof. destruct st; unfold after; simpl. now rewrite app_nil_r. Qed.

(** ** What [get_project_info] returns *)

Ltac close_run :=
  unfold raise_for_status, response_json, py_get, print, emit, ret, raise, after;
  simpl; rewrite <- ?app_assoc; reflexivity.

(** On a failed fetch [get_project_info] returns [None]; it has sent one
    request and printed at most one line. *)
Lemma get_project_info_failure env project_id st :
  fetch_failure (answer env st project_id) ->
  exists lines,
    get_project_info project_id env st
    = (Returned PyNone, after st (request project_id :: map EPrint lines)).
Proof.
  intros H.
  unfold get_project_info, try_except, bind, session_get.
  change (http_get env (trace st) (api_url ++ str_of_int project_id)%string)
    with (answer env st project_id).
  destruct H as [e | msg j | e | v Hv | kv Hc | kv Hc Hd].
  - destruct (is_RequestException e); [|destruct (is_JSONDecodeError e)];
      eexists [_]; close_run.
  - eexists [_]; close_run.
  - unfold raise_for_status, response_json; simpl.
    destruct (is_RequestException e); [|destruct (is_JSONDecodeError e)];
      eexists [_]; close_run.
  - destruct v; try discriminate; eexists [_]; close_run.
  - unfold raise_for_status, response_json, py_get, ret; simpl.
    rewrite Hc. eexists [_]; close_run.
  - unfold raise_for_status, response_json, py_get, ret; simpl.
    rewrite Hc, Hd. exists []; close_run.
Qed.

(** On an object with code 0 it returns what the object holds under
    "data", and prints nothing. *)
Lemma get_project_info_data env project_id st kv :
  answer env st project_id = inr (mk_response None (inr (PyDict kv))) ->
  py_eq_int (dict_get kv "code" PyNone) 0 = true ->
  get_project_info project_id env st
  = (Returned (dict_get kv "data" PyNone), after st [request project_id]).
Proof.
  intros Ha Hc.
  unfold get_project_info, try_except, bind, session_get.
  change (http_get env (trace st) (api_url ++ str_of_int project_id)%string)
    with (answer env st project_id).
  rewrite Ha. unfold raise_for_status, response_json, py_get, ret; simpl.
  rewrite Hc. reflexivity.
Qed.

(** The three kinds of answers cover every answer. *)
Lemma answer_cases (a : exn + response) :
  fetch_failure a \/ (exists d, well_formed_payload a d) \/ (exists v, malformed_data a v).
Proof.
  destruct a as [e|[[msg|] [e|v]]]; try (left; constructor; fail).
  destruct (is_dict v) eqn:Hv; [|left; now constructor].
  destruct v as [| | | | |kv]; try discriminate.
  destruct (py_eq_int (dict_get kv "code" PyNone) 0) eqn:Hc; [|left; now constructor].
  destruct (dict_get kv "data" PyNone) as [| | | | |d] eqn:Hd;
    try (right; right; eexists; econstructor; eauto; fail).
  - left. now apply No_data.
  - right; left. exists d. now constructor.
Qed.

(** ** What [scan_project] does, by kind of answer *)

(** A failed fetch: the error result, and nothing appended. *)
Lemma scan_project_failure env project_id st :
  fetch_failure (answer env st project_id) ->
  exists lines,
    scan_project project_id env st
    = (Returned (error_outcome project_id),
       after st (request project_id :: map EPrint lines)).
Proof.
  intros H. destruct (get_project_info_failure env project_id st H) as [lines E].
  exists lines. unfold scan_project, bind. rewrite E. reflexivity.
Qed.

(** A well-formed payload: the success result, appended to the hidden
    projects when its hide equals 1. *)
Lemma scan_project_success env project_id st d :
  well_formed_payload (answer env st project_id) d ->
  scan_project project_id env st
  = (Returned (success_outcome project_id d),
     if py_eq_int (dict_get d "hide" PyNone) 1
     then mk_state (hidden_projects st ++ [success_outcome project_id d])
            (scan_results st) (trace st ++ [request project_id])
     else after st [request project_id]).
Proof.
  intros H. inversion H as [kv d' Hc Hd Ha]; subst d'.
  symmetry in Ha.
  unfold scan_project, bind.
  rewrite (get_project_info_data env project_id st kv Ha Hc), Hd.
  cbn [is_None py_get ret set_hide set_name set_status hide].
  unfold success_outcome.
  destruct (py_eq_int (dict_get d "hide" PyNone) 1); reflexivity.
Qed.

(** A malformed data: the AttributeError of [project_info.get('hide')]
    leaves the method, and nothing is appended. *)
Lemma scan_project_malformed env project_id st v :
  malformed_data (answer env st project_id) v ->
  scan_project project_id env st
  = (Raised (no_attribute v "get"), after st [request project_id]).
Proof.
  intros H. inversion H as [kv v' Hc Hd Hn Hv Ha]; subst v'.
  symmetry in Ha.
  unfold scan_project, bind.
  rewrite (get_project_info_data env project_id st kv Ha Hc), Hd, Hn.
  destruct v; try discriminate; reflexivity.
Qed.

(** ** Ranges and paced histories *)

Lemma range_nil lo hi : hi <= lo -> range lo hi = [].
Proof.
  intros H. unfold range. replace (Z.to_nat (hi - lo)) with O by lia. reflexivity.
Qed.

Lemma range_cons lo hi : lo < hi -> range lo hi = lo :: range (lo + 1) hi.
Proof.
  intros H. unfold range.
  replace (Z.to_nat (hi - lo)) with (S (Z.to_nat (hi - (lo + 1)))) by lia.
  cbn [seq map]. f_equal; [lia|].
  rewrite <- seq_shift, map_map. apply map_ext. intros i. lia.
Qed.

Lemma range_length lo hi : Z.of_nat (List.length (range lo hi)) = Z.max 0 (hi - lo).
Proof. unfold range. rewrite length_map, length_seq. lia. Qed.

Lemma range_snoc lo hi : lo <= hi -> range lo (hi + 1) = range lo hi ++ [hi].
Proof.
  intros H. unfold range.
  replace (Z.to_nat (hi + 1 - lo)) with (Z.to_nat (hi - lo) + 1)%nat by lia.
  rewrite seq_app, map_app. cbn [seq map]. do 2 f_equal. lia.
Qed.

Lemma paced_cons interval first last :
  first < last ->
  paced interval first last
  = request first :: ESleep interval :: paced interval (first + 1) last.
Proof.
  intros H. unfold paced. rewrite (range_cons first last H). reflexivity.
Qed.

Lemma paced_one interval i : paced interval i i = [request i].
Proof. unfold paced. rewrite range_nil by lia. reflexivity. Qed.

Lemma filter_io_prints lines : filter is_io (map EPrint lines) = [].
Proof. induction lines; simpl; auto. Qed.

(** ** The loop of [scan_range] *)

(** One turn of the loop of [scan_range].  Either the result [r] of the
    ID is appended -- and then the turn ends, or the sleep after it raises
    because [time.sleep] turns the interval down -- or [scan_project] raises on a
    malformed data and nothing is appended. *)
Lemma scan_body_run env end_id interval total_count project_id loc st :
  (exists r es res,
      scan_body end_id interval total_count project_id loc env st
      = (res,
         mk_state (hidden_projects st ++ filter is_hidden [r])
           (scan_results st ++ [r]) (trace st ++ es))
      /\ id r = project_id
      /\ produced env r
      /\ (((exists error_count, res = Returned (fst loc + 1, error_count))
           /\ filter is_io es
              = request project_id
                :: (if project_id <? end_id then [ESleep interval] else []))
          \/ ((exists e, res = Raised e)
              /\ project_id < end_id
              /\ sleep_error env interval <> None
              /\ filter is_io es = [request project_id])))
  \/ (exists e es tr v,
         scan_body end_id interval total_count project_id loc env st
         = (Raised e, after st es)
         /\ filter is_io es = [request project_id]
         /\ malformed_data (http_get env tr (url_of project_id)) v).
Proof.
  destruct loc as [scanned_count error_count].
  assert (Hend : exists (after_turn : Z -> result (Z * Z)) (slept : list event),
             (forall (st2 : state) (ec : Z),
                 ((if project_id <? end_id then sleep interval else ret tt);;
                  ret (scanned_count + 1, ec)) env st2
                 = (after_turn ec, after st2 slept))
             /\ (((forall ec, exists error_count,
                      after_turn ec = Returned (scanned_count + 1, error_count))
                  /\ slept = (if project_id <? end_id then [ESleep interval] else []))
                 \/ ((forall ec, exists e, after_turn ec = Raised e)
                     /\ project_id < end_id
                     /\ sleep_error env interval <> None
                     /\ slept = []))).
  { destruct (Z.ltb_spec project_id end_id) as [Hlt|Hge].
    - destruct (sleep_error env interval) as [e|] eqn:Hq.
      + exists (fun _ => Raised e), [].
        split; [|right; split; [eauto|split; [exact Hlt|split; [discriminate|reflexivity]]]].
        intros st2 ec. rewrite bind_run, (sleep_raises _ _ _ e Hq), after_nil.
        reflexivity.
      + exists (fun ec => Returned (scanned_count + 1, ec)), [ESleep interval].
        split; [|left; eauto].
        intros st2 ec. rewrite bind_run, sleep_run by exact Hq. reflexivity.
    - exists (fun ec => Returned (scanned_count + 1, ec)), [].
      split; [|left; eauto].
      intros st2 ec. rewrite bind_run, !ret_run, after_nil. reflexivity. }
  destruct Hend as (after_turn & slept & Htail & Hres).
  assert (Hio : forall ec,
             ((exists error_count, after_turn ec = Returned (scanned_count + 1, error_count))
              /\ request project_id :: slept
                 = request project_id
                   :: (if project_id <? end_id then [ESleep interval] else []))
             \/ ((exists e, after_turn ec = Raised e)
                 /\ project_id < end_id
                 /\ sleep_error env interval <> None
                 /\ request project_id :: slept = [request project_id])).
  { intros ec. destruct Hres as [[Hr ->]|(Hr & Hlt & Hq & ->)];
      [left|right]; repeat split; auto. }
  unfold scan_body. cbn [fst]. step.
  set (progress := EPrint (LProgress (scanned_count + 1) total_count project_id)).
  set (st1 := after st [progress]).
  rewrite bind_run.
  destruct (answer_cases (answer env st1 project_id)) as [Hf|[[d Hw]|[v Hm]]].
  - left. destruct (scan_project_failure env project_id st1 Hf) as [lines E].
    rewrite E. set (r := error_outcome project_id).
    exists r.
    exists (progress :: request project_id :: map EPrint lines
            ++ EPrint (LError (error r)) :: slept).
    exists (after_turn (error_count + 1)).
    split; [|split; [reflexivity|split; [now left|]]].
    + step. change (String.eqb (status r) "error") with true.
      cbv beta iota. rewrite bind_run. step. rewrite ret_run. cbv beta iota.
      rewrite Htail.
      unfold after, st1. simpl. rewrite <- ?app_assoc, ?app_nil_r. simpl.
      rewrite <- ?app_assoc. reflexivity.
    + simpl. rewrite filter_app, filter_io_prints. simpl.
      replace (filter is_io slept) with slept
        by (destruct Hres as [[_ ->]|(_ & _ & _ & ->)];
            [destruct (project_id <? end_id)|]; reflexivity).
      apply Hio.
  - left. rewrite (scan_project_success env project_id st1 d Hw).
    set (r := success_outcome project_id d).
    exists r.
    exists (progress :: request project_id
            :: EPrint (if py_eq_int (hide r) 1
                       then LFoundHidden (name r) else LHide (hide r))
            :: slept).
    exists (after_turn error_count).
    split; [|split; [reflexivity|split; [right; exists (trace st1), d; now split|]]].
    + change (dict_get d "hide" PyNone) with (hide r).
      assert (Hh : is_hidden r = py_eq_int (hide r) 1) by reflexivity.
      cbn [filter]. rewrite Hh.
      destruct (py_eq_int (hide r) 1) eqn:H1.
      all: step; change (String.eqb (status r) "error") with false; cbv iota.
      all: rewrite bind_run; step; rewrite ret_run; cbv beta iota.
      all: rewrite Htail.
      all: unfold after, st1; simpl; rewrite <- ?app_assoc, ?app_nil_r; simpl;
        reflexivity.
    + simpl.
      replace (filter is_io slept) with slept
        by (destruct Hres as [[_ ->]|(_ & _ & _ & ->)];
            [destruct (project_id <? end_id)|]; reflexivity).
      apply Hio.
  - right. rewrite (scan_project_malformed env project_id st1 v Hm).
    eexists. exists [progress; request project_id]. exists (trace st1), v.
    split; [|split; [reflexivity|exact Hm]].
    unfold after, st1; simpl; rewrite <- ?app_assoc; reflexivity.
Qed.

(** The loop of [scan_range], from [first] on. *)
Lemma scan_loop_run env end_id interval total_count :
  forall (n : nat) (first : Z) loc st,
    Z.of_nat n = Z.max 0 (end_id + 1 - first) ->
    exists res out es,
      for_each (range first (end_id + 1))
        (scan_body end_id interval total_count) loc env st
      = (res,
         mk_state (hidden_projects st ++ filter is_hidden out)
           (scan_results st ++ out) (trace st ++ es))
      /\ Forall (produced env) out
      /\ ((exists loc', res = Returned loc'
             /\ map id out = range first (end_id + 1)
             /\ filter is_io es
                = if first <=? end_id then paced interval first end_id else [])
          \/ (exists e last, res = Raised e
                /\ first <= last <= end_id
                /\ filter is_io es = paced interval first last
                /\ stopped env interval first last end_id (map id out))).
Proof.
  induction n as [|n IH]; intros first loc st Hn.
  - rewrite range_nil by lia. exists (Returned loc), [], []. simpl.
    rewrite !app_nil_r. split; [now destruct st|]. split; [constructor|].
    left. exists loc. repeat split. destruct (Z.leb_spec first end_id); [lia|reflexivity].
  - rewrite (range_cons first (end_id + 1)) by lia.
    cbn [for_each]. rewrite bind_run.
    destruct (scan_body_run env end_id interval total_count first loc st)
      as [(r & es1 & res1 & E & Hid & Hst & Hturn)|(e & es1 & tr & v & E & Hio & Hm)];
      rewrite E.
    + destruct Hturn as [[(ec & ->) Hio]|((e & ->) & Hlt & Hq & Hio)].
      * set (st1 := mk_state _ _ _).
        assert (Hn' : Z.of_nat n = Z.max 0 (end_id + 1 - (first + 1))) by lia.
        destruct (IH (first + 1) (fst loc + 1, ec) st1 Hn')
          as (res & out & es & E' & Hout & Hres).
        rewrite E'. exists res, (r :: out), (es1 ++ es).
        split; [|split; [now constructor|]].
        -- unfold st1. cbn [hidden_projects scan_results trace].
           rewrite <- !app_assoc. f_equal. f_equal.
           change (r :: out) with ([r] ++ out). now rewrite filter_app.
        -- rewrite filter_app, Hio.
           destruct Hres as [(loc' & -> & Hids & Hio')|(e & last & -> & Hl & Hio' & Hs)].
           ++ left. exists loc'. split; [reflexivity|].
              split; [cbn [map]; now rewrite Hid, Hids|].
              rewrite Hio'. destruct (Z.leb_spec first end_id); [|lia].
              destruct (Z.leb_spec (first + 1) end_id).
              ** rewrite (paced_cons interval first end_id) by lia.
                 destruct (Z.ltb_spec first end_id); [reflexivity|lia].
              ** replace end_id with first by lia.
                 rewrite paced_one, Z.ltb_irrefl. reflexivity.
           ++ right. exists e, last. split; [reflexivity|]. split; [lia|]. split.
              ** rewrite Hio', (paced_cons interval first last) by lia.
                 destruct (Z.ltb_spec first end_id); [reflexivity|lia].
              ** cbn [map]. rewrite Hid.
                 destruct Hs as [[Hm ->]|(Hq & Hlt & ->)]; [left|right].
                 --- split; [exact Hm|]. now rewrite (range_cons first last) by lia.
                 --- repeat split; auto.
                     now rewrite (range_cons first (last + 1)) by lia.
      * exists (Raised e), [r], es1.
        split; [reflexivity|]. split; [now constructor|].
        right. exists e, first. split; [reflexivity|]. split; [lia|].
        split; [now rewrite paced_one|].
        right. repeat split; auto. cbn [map]. rewrite Hid.
        rewrite (range_cons first (first + 1)) by lia. now rewrite range_nil by lia.
    + exists (Raised e), [], es1. simpl. rewrite !app_nil_r.
      split; [reflexivity|]. split; [constructor|].
      right. exists e, first. split; [reflexivity|]. split; [lia|].
      split; [now rewrite paced_one|].
      left. split; [eauto|]. now rewrite range_nil by lia.
Qed.

(** The list of hidden projects at the end of the summary. *)
Lemma print_items_run env (hs : list outcome) st :
  for_each hs (fun project _ => print (LHiddenItem (id project) (name project))) tt env st
  = (Returned tt,
     after st (map (fun p => EPrint (LHiddenItem (id p) (name p))) hs)).
Proof.
  revert st. induction hs as [|h hs IH]; intros st.
  - simpl. now rewrite ret_run, after_nil.
  - cbn [for_each map]. step. rewrite IH, after_after. reflexivity.
Qed.

Lemma get_state_run env st : get_state env st = (Returned st, st).
Proof. reflexivity. Qed.

Lemma filter_io_map_print {A} (f : A -> line) l :
  filter is_io (map (fun x => EPrint (f x)) l) = [].
Proof. induction l; simpl; auto. Qed.

(** A whole call of [scan_range]. *)
Lemma scan_range_run env start_id end_id interval st :
  exists res out es,
    scan_range start_id end_id interval env st
    = (res,
       mk_state (hidden_projects st ++ filter is_hidden out)
         (scan_results st ++ out) (trace st ++ es))
    /\ Forall (produced env) out
    /\ ((res = Returned tt
           /\ map id out = range start_id (end_id + 1)
           /\ filter is_io es
              = if start_id <=? end_id then paced interval start_id end_id else [])
        \/ (exists e last, res = Raised e
              /\ start_id <= last <= end_id
              /\ filter is_io es = paced interval start_id last
              /\ stopped env interval start_id last end_id (map id out))).
Proof.
  unfold scan_range. do 4 step. rewrite !after_after. cbn [app].
  set (pre := [EPrint _; _; _; _]). set (st0 := after st pre).
  rewrite bind_run.
  destruct (scan_loop_run env end_id interval (end_id - start_id + 1)
              (Z.to_nat (end_id + 1 - start_id)) start_id (0, 0) st0 ltac:(lia))
    as (res & out & es & E & Hout & Hres).
  rewrite E.
  destruct Hres as [(loc' & -> & Hids & Hio)|(e & last & -> & Hl & Hio & Hs)].
  - destruct loc' as [scanned_count error_count]. cbv iota beta.
    do 7 step. rewrite bind_run, get_state_run. cbv iota beta. step.
    rewrite !after_after. cbn [app].
    set (st1 := mk_state _ _ _).
    set (post := [ENow; _; _; _; _; _; _; _]).
    assert (Hfin : exists items,
               match hidden_projects (after st1 post) with
               | [] => ret tt
               | _ :: _ =>
                   print LHiddenHeader;;
                   for_each (hidden_projects (after st1 post))
                     (fun project _ => print (LHiddenItem (id project) (name project))) tt
               end env (after st1 post)
               = (Returned tt, after st1 (post ++ map EPrint items))).
    { destruct (hidden_projects (after st1 post)) as [|h hs] eqn:Eh.
      - exists []. rewrite ret_run. cbn [map]. now rewrite app_nil_r.
      - step. rewrite print_items_run, !after_after.
        exists (LHiddenHeader :: map (fun p => LHiddenItem (id p) (name p)) (h :: hs)).
        do 2 f_equal. cbn [map app]. do 2 f_equal. now rewrite map_map. }
    destruct Hfin as [items Hfin].
    exists (Returned tt), out, (pre ++ es ++ post ++ map EPrint items).
    split; [|split; [exact Hout|left; split; [reflexivity|split; [exact Hids|]]]].
    + etransitivity; [exact Hfin|]. unfold after, st1, st0. simpl.
      rewrite <- !app_assoc. reflexivity.
    + rewrite !filter_app, Hio, filter_io_prints. simpl. now rewrite app_nil_r.
  - exists (Raised e), out, (pre ++ es).
    split; [|split; [exact Hout|right; exists e, last; repeat split; auto; try lia]].
    unfold st0, after. simpl. now rewrite <- !app_assoc.
Qed.

(** ** The results of [scan_project] *)

(** [get_project_info] returns [None] exactly when the fetch fails in one
    of the six ways of [fetch_failure]; it never raises. *)
Lemma get_project_info_None_iff env project_id st :
  (exists st', get_project_info project_id env st = (Returned PyNone, st'))
  <-> fetch_failure (answer env st project_id).
Proof.
  split.
  - intros [st' E].
    destruct (answer_cases (answer env st project_id)) as [Hf|[[d Hw]|[v Hm]]]; auto.
    + inversion Hw as [kv d' Hc Hd Ha]; subst d'. symmetry in Ha.
      rewrite (get_project_info_data env project_id st kv Ha Hc), Hd in E.
      discriminate.
    + inversion Hm as [kv v' Hc Hd Hn Hv Ha]; subst v'. symmetry in Ha.
      rewrite (get_project_info_data env project_id st kv Ha Hc), Hd in E.
      inversion E as [H0]. rewrite H0 in Hn. discriminate Hn.
  - intros H. destruct (get_project_info_failure env project_id st H) as [lines E].
    eauto.
Qed.

(** [get_project_info] always returns: its handlers catch every
    exception. *)
Lemma get_project_info_total env project_id st :
  exists v st', get_project_info project_id env st = (Returned v, st').
Proof.
  destruct (answer_cases (answer env st project_id)) as [Hf|[[d Hw]|[v Hm]]].
  - destruct (get_project_info_failure env project_id st Hf) as [lines E]. eauto.
  - inversion Hw as [kv d' Hc Hd Ha]. symmetry in Ha.
    rewrite (get_project_info_data env project_id st kv Ha Hc). eauto.
  - inversion Hm as [kv v' Hc Hd Hn Hv Ha]. symmetry in Ha.
    rewrite (get_project_info_data env project_id st kv Ha Hc). eauto.
Qed.

(** C8. A fetch that fails, for whatever reason, gives the result
    [{id, hide: None, name: None, status: "error", error: msg}] with a text
    [msg] that is not empty; a well-formed payload gives a result with
    status "success", whatever its hide is. *)
Theorem scan_project_outcome env project_id st :
  (fetch_failure (answer env st project_id) ->
   exists st' msg,
     scan_project project_id env st
     = (Returned (mk_outcome project_id PyNone PyNone "error" (Some msg)), st')
     /\ msg <> "")
  /\ (forall d, well_formed_payload (answer env st project_id) d ->
      exists r st',
        scan_project project_id env st = (Returned r, st')
        /\ id r = project_id
        /\ status r = "success"
        /\ hide r = dict_get d "hide" PyNone).
Proof.
  split.
  - intros Hf. destruct (scan_project_failure env project_id st Hf) as [lines E].
    rewrite E. eexists. exists msg_no_info. split; [reflexivity|discriminate].
  - intros d Hw. rewrite (scan_project_success env project_id st d Hw).
    exists (success_outcome project_id d). eexists. repeat split.
Qed.

Lemma scan_project_outcome_witness :
  (exists st' msg,
     scan_project 101 (env_of server_sample) (init [])
     = (Returned (mk_outcome 101 PyNone PyNone "error" (Some msg)), st')
     /\ msg <> "")
  /\ (exists r st',
        scan_project 100 (env_of server_sample) (init []) = (Returned r, st')
        /\ id r = 100
        /\ status r = "success"
        /\ hide r = dict_get [("hide", PyInt 1); ("name", PyStr "A")] "hide" PyNone).
Proof.
  split.
  - apply (proj1 (scan_project_outcome (env_of server_sample) 101 (init []))).
    apply Transport_failure.
  - apply (proj2 (scan_project_outcome (env_of server_sample) 100 (init []))).
    apply (Well_formed [("code", PyInt 0);
                        ("data", PyDict [("hide", PyInt 1); ("name", PyStr "A")])]);
      reflexivity.
Defined.

(** C5. For a well-formed payload the hide of the result is what the data
    holds under "hide", and the result joins the hidden projects exactly
    when that value equals 1 (for Python's [==], see [py_eq_int]).  When the
    data has no "hide", the hide of the result is [None], which is not 0,
    and the hidden projects stay as they were; an integer hide other than 1
    leaves them unchanged too. *)
Theorem absent_hide_is_not_hidden env project_id st d :
  well_formed_payload (answer env st project_id) d ->
  exists r st',
    scan_project project_id env st = (Returned r, st')
    /\ status r = "success"
    /\ hide r = dict_get d "hide" PyNone
    /\ hidden_projects st'
       = (if py_eq_int (hide r) 1 then hidden_projects st ++ [r]
          else hidden_projects st)
    /\ (dict_lookup d "hide" = None ->
        hide r = PyNone /\ hide r <> PyInt 0 /\ py_eq_int (hide r) 0 = false
        /\ hidden_projects st' = hidden_projects st)
    /\ (forall z, hide r = PyInt z ->
        (hidden_projects st' = hidden_projects st ++ [r] /\ z = 1)
        \/ (hidden_projects st' = hidden_projects st /\ z <> 1)).
Proof.
  intros Hw. rewrite (scan_project_success env project_id st d Hw).
  set (r := success_outcome project_id d).
  exists r. eexists. split; [reflexivity|]. split; [reflexivity|]. split; [reflexivity|].
  change (dict_get d "hide" PyNone) with (hide r).
  split; [destruct (py_eq_int (hide r) 1); reflexivity|]. split.
  - intros Hl. assert (Hh : hide r = PyNone).
    { unfold r, success_outcome, dict_get. cbn [hide]. now rewrite Hl. }
    rewrite Hh. repeat split. discriminate.
  - intros z Hz. rewrite Hz. cbn [py_eq_int].
    destruct (Z.eqb_spec z 1); [left|right]; split; auto.
Qed.

Lemma absent_hide_is_not_hidden_witness :
  exists r st',
    scan_project 9 (env_of server_no_hide) (init []) = (Returned r, st')
    /\ status r = "success"
    /\ hide r = PyNone
    /\ hidden_projects st' = []
    /\ hide r <> PyInt 0.
Proof.
  destruct (absent_hide_is_not_hidden (env_of server_no_hide) 9 (init [])
              [("name", PyStr "C")]) as (r & st' & E & Hs & Hh & Hp & Hn & _).
  - apply (Well_formed [("code", PyInt 0); ("data", PyDict [("name", PyStr "C")])]);
      reflexivity.
  - exists r, st'. destruct (Hn eq_refl) as (H1 & H2 & H3 & H4).
    repeat split; auto.
Defined.

(** C3, as stated, fails: for the answer [{"code": 10002, "message": "not
    found"}] the error text of the result does not contain "not found". *)
Lemma server_message_is_not_reported :
  ~ reports_server_message (env_of server_not_found) (init []) 7 "not found".
Proof.
  intros (r & st' & e & E & _ & He & Hc).
  vm_compute in E. inversion E; subst. inversion He; subst.
  vm_compute in Hc. discriminate Hc.
Qed.

(** C3, amended.  When the payload carries a code other than 0, the result
    is the error result with the fixed text [msg_no_info], the very result
    that a transport failure gives; the message of the server is printed on
    the console by [get_project_info] and appears nowhere in the result. *)
Theorem application_error_outcome env project_id st kv :
  answer env st project_id = ok_body (PyDict kv) ->
  py_eq_int (dict_get kv "code" PyNone) 0 = false ->
  scan_project project_id env st
  = (Returned (mk_outcome project_id PyNone PyNone "error" (Some msg_no_info)),
     after st [request project_id;
               EPrint (LApiError project_id
                         (dict_get kv "message" (PyStr msg_unknown_error)))])
  /\ (forall env' st' e,
        answer env' st' project_id = inl e ->
        exists st'',
          scan_project project_id env' st'
          = (Returned (mk_outcome project_id PyNone PyNone "error" (Some msg_no_info)),
             st'')).
Proof.
  intros Ha Hc. split.
  - unfold scan_project, get_project_info, try_except, bind, session_get.
    change (http_get env (trace st) (api_url ++ str_of_int project_id)%string)
      with (answer env st project_id).
    rewrite Ha. unfold ok_body, raise_for_status, response_json, py_get, ret; simpl.
    rewrite Hc. close_run.
  - intros env' st' e He.
    destruct (scan_project_failure env' project_id st') as [lines E].
    + rewrite He. constructor.
    + rewrite E. eauto.
Qed.

Lemma application_error_outcome_witness :
  scan_project 7 (env_of server_not_found) (init [])
  = (Returned (mk_outcome 7 PyNone PyNone "error" (Some msg_no_info)),
     after (init []) [request 7; EPrint (LApiError 7 (PyStr "not found"))]).
Proof.
  apply (application_error_outcome (env_of server_not_found) 7 (init [])
           [("code", PyInt 10002); ("message", PyStr "not found")]);
    reflexivity.
Defined.

(** C4, at the failing input: for the answer [{"code": 0, "data": "oops"}]
    [scan_project] returns no result; the AttributeError of the call
    ["oops".get('hide')] leaves the method. *)
Theorem scan_project_raises_on_malformed_data :
  scan_project 101 (env_of server_malformed) (init [])
  = (Raised (mk_exn AttributeError "'str' object has no attribute 'get'"),
     after (init []) [request 101]).
Proof. vm_compute. reflexivity. Qed.

(** C1, at the failing input: the scan of 100..102 against a server whose
    answer for 101 is [{"code": 0, "data": "oops"}] raises in its second
    turn; one result, not three, has been appended, and 102 is never
    requested. *)
Theorem scan_range_stops_at_malformed_data :
  exists e st',
    scan_range 100 102 (1 # 2) (env_of server_malformed) (init []) = (Raised e, st')
    /\ exn_cls e = AttributeError
    /\ map id (scan_results st') = [100]
    /\ filter is_get (trace st') = [request 100; request 101].
Proof. do 2 eexists. vm_compute. repeat split. Qed.

(** The scenario of three projects: 100 hidden, 101 timing out, 102 not
    hidden. *)
Example scan_sample :
  exists st',
    scan_range 100 102 (1 # 2) (env_of server_sample) (init []) = (Returned tt, st')
    /\ scan_results st' = sample_results
    /\ hidden_projects st' = [ mk_outcome 100 (PyInt 1) (PyStr "A") "success" None ]
    /\ filter is_io (trace st')
       = [ request 100; ESleep (1 # 2); request 101; ESleep (1 # 2); request 102 ].
Proof. eexists. vm_compute. repeat split. Qed.

(** ** Scans as a whole *)

(** A loop over [xs ++ ys] is the loop over [xs], then the loop over
    [ys]. *)
Lemma for_each_app {A L} (xs ys : list A) (body : A -> L -> M L) loc env st :
  for_each (xs ++ ys) body loc env st
  = bind (for_each xs body loc) (for_each ys body) env st.
Proof.
  revert loc st. induction xs as [|x xs IH]; intros loc st.
  - reflexivity.
  - cbn [app for_each]. rewrite !bind_run.
    destruct (body x loc env st) as [[loc'|e] st1]; [|reflexivity].
    rewrite IH, bind_run. reflexivity.
Qed.

Lemma bind_assoc {A B C} (m : M A) (f : A -> M B) (g : B -> M C) env st :
  bind (bind m f) g env st = bind m (fun x => bind (f x) g) env st.
Proof. unfold bind. destruct (m env st) as [[a|e] st']; reflexivity. Qed.

(** [scan_range] runs through the state in which [scan_range_upto k]
    ends, for every [k]. *)
Lemma scan_range_split k start_id end_id interval env st :
  scan_range start_id end_id interval env st
  = bind (scan_range_upto k start_id end_id interval)
      (scan_range_from k start_id end_id interval) env st.
Proof.
  unfold scan_range, scan_range_upto, scan_range_from.
  do 4 (rewrite ?bind_assoc; rewrite !bind_run; rewrite ?print_run, ?now_run;
        cbv beta iota).
  set (st0 := after _ [ENow]).
  rewrite <- (firstn_skipn k (range start_id (end_id + 1))) at 1.
  rewrite bind_assoc, !bind_run, for_each_app, !bind_run.
  destruct (for_each (firstn k _) _ _ env st0) as [[loc|e] st1]; [|reflexivity].
  reflexivity.
Qed.

(** *** Saving *)

Lemma write_file_run filename content env st :
  write_file filename content env st
  = (match write_failure env (trace st) filename content with
     | Some e => Raised e
     | None => Returned tt
     end,
     after st [EWriteFile filename content
                 (write_failure env (trace st) filename content)]).
Proof.
  unfold write_file. destruct (write_failure env (trace st) filename content); reflexivity.
Qed.

(** A call of [save_results] never raises.  It reads the clock (once more
    when it has to make up the file name), hands the text of
    [results_data] to the disk and reports on the console. *)
Lemma save_results_run env st filename :
  exists scan_time pre failure,
    save_results filename env st
    = (Returned tt,
       after st
         (pre ++
          [EWriteFile (saved_name env st filename)
             (Json.dumps (results_data scan_time st)) failure;
           EPrint (match failure with
                   | None => LSaved (saved_name env st filename)
                   | Some e => LSaveFailed (exn_str e)
                   end)]))
    /\ Forall (fun e => e = ENow) pre
    /\ (has_surrogate (Json.dumps (results_data scan_time st)) = true ->
        failure <> None).
Proof.
  unfold save_results.
  rewrite bind_run.
  assert (E : exists pre,
             match filename with
             | Some f => ret f
             | None =>
                 timestamp <- now;;
                 ret ("bilibili_scan_results_" ++ strftime_compact timestamp
                      ++ ".json")%string
             end env st
             = (Returned (saved_name env st filename), after st pre)
             /\ Forall (fun e => e = ENow) pre).
  { destruct filename as [f|].
    - exists []. rewrite ret_run, after_nil. split; [reflexivity|constructor].
    - exists [ENow]. step. rewrite ret_run. split; [reflexivity|repeat constructor]. }
  destruct E as (pre & -> & Hpre).
  step. rewrite bind_run, get_state_run. cbv beta iota.
  set (st1 := after (after st pre) [ENow]).
  set (scan_time := clock env (trace (after st pre))).
  change (results_data scan_time st1) with (results_data scan_time st).
  set (fn := saved_name env st filename).
  set (text := Json.dumps (results_data scan_time st)).
  exists scan_time, (pre ++ [ENow]), (write_failure env (trace st1) fn text).
  split.
  - unfold try_except. rewrite bind_run, write_file_run.
    destruct (write_failure env (trace st1) fn text) as [e|].
    + rewrite print_run. unfold st1. rewrite !after_after, <- !app_assoc. reflexivity.
    + rewrite print_run. unfold st1. rewrite !after_after, <- !app_assoc. reflexivity.
  - split; [apply Forall_app; split; [exact Hpre|repeat constructor]|].
    fold text. intros Hs. unfold write_failure. rewrite Hs.
    destruct (disk_write env (trace st1) fn text); discriminate.
Qed.

(** *** The invariant of the two lists *)

(** Each turn keeps the invariant, and so does every loop of turns. *)
Lemma scan_body_consistent env end_id interval total_count project_id loc st :
  consistent st ->
  consistent (snd (scan_body end_id interval total_count project_id loc env st)).
Proof.
  unfold consistent. intros H.
  destruct (scan_body_run env end_id interval total_count project_id loc st)
    as [(r & es & ec & E & _)|(e & es & tr & v & E & _)]; rewrite E; cbn [snd].
  - cbn [hidden_projects scan_results]. rewrite filter_app, H. reflexivity.
  - exact H.
Qed.

Lemma for_each_scan_body_consistent env end_id interval total_count ids :
  forall loc st,
    consistent st ->
    consistent
      (snd (for_each ids (scan_body end_id interval total_count) loc env st)).
Proof.
  induction ids as [|i ids IH]; intros loc st H.
  - exact H.
  - cbn [for_each]. rewrite bind_run.
    pose proof (scan_body_consistent env end_id interval total_count i loc st H) as H1.
    destruct (scan_body end_id interval total_count i loc env st) as [[loc'|e] st1].
    + apply IH, H1.
    + exact H1.
Qed.

Lemma scan_range_upto_consistent k start_id end_id interval env st :
  consistent st ->
  consistent (snd (scan_range_upto k start_id end_id interval env st)).
Proof.
  intros H. unfold scan_range_upto. do 4 step. rewrite bind_run.
  set (st0 := after _ [ENow]).
  assert (H0 : consistent st0) by exact H.
  pose proof (for_each_scan_body_consistent env end_id interval
                (end_id - start_id + 1) (firstn k (range start_id (end_id + 1)))
                (0, 0) st0 H0) as H1.
  destruct (for_each _ _ _ env st0) as [[loc|e] st1]; exact H1.
Qed.

Lemma scan_range_consistent start_id end_id interval env st :
  consistent st ->
  consistent (snd (scan_range start_id end_id interval env st)).
Proof.
  unfold consistent. intros H.
  destruct (scan_range_run env start_id end_id interval st)
    as (res & out & es & E & _). rewrite E. cbn [snd hidden_projects scan_results].
  rewrite filter_app, H. reflexivity.
Qed.

Lemma is_hidden_true r :
  is_hidden r = true ->
  status r = "success" /\ py_eq_int (hide r) 1 = true
  /\ status r <> "error" /\ hide r <> PyNone.
Proof.
  unfold is_hidden. intros H. apply andb_prop in H. destruct H as [Hs Hh].
  apply String.eqb_eq in Hs. repeat split; auto.
  - rewrite Hs. discriminate.
  - intros E. rewrite E in Hh. discriminate.
Qed.

Lemma consistent_hidden st :
  consistent st ->
  Forall (fun r => In r (scan_results st)
                   /\ status r = "success" /\ py_eq_int (hide r) 1 = true
                   /\ status r <> "error" /\ hide r <> PyNone)
    (hidden_projects st).
Proof.
  unfold consistent. intros ->. apply Forall_forall. intros r Hr.
  apply filter_In in Hr. destruct Hr as [Hin Hh]. split; [exact Hin|].
  now apply is_hidden_true.
Qed.

(** Inside a turn, between the return of [scan_project] and the append to
    the log, the hidden projects may be one result ahead of the log; still
    every one of them has status "success" and a hide equal to 1. *)
Lemma scan_project_keeps_hidden env project_id st :
  Forall (fun r => is_hidden r = true) (hidden_projects st) ->
  Forall (fun r => is_hidden r = true)
    (hidden_projects (snd (scan_project project_id env st))).
Proof.
  intros H.
  destruct (answer_cases (answer env st project_id)) as [Hf|[[d Hw]|[v Hm]]].
  - destruct (scan_project_failure env project_id st Hf) as [lines E].
    rewrite E. exact H.
  - rewrite (scan_project_success env project_id st d Hw).
    destruct (py_eq_int (dict_get d "hide" PyNone) 1) eqn:H1; [|exact H].
    cbn [snd hidden_projects]. apply Forall_app. split; [exact H|].
    constructor; [|constructor]. unfold is_hidden. cbn [status hide success_outcome].
    now rewrite H1.
  - rewrite (scan_project_malformed env project_id st v Hm). exact H.
Qed.

Lemma init_consistent history : consistent (init history).
Proof. reflexivity. Qed.

Lemma save_results_lists env st filename :
  hidden_projects (snd (save_results filename env st)) = hidden_projects st
  /\ scan_results (snd (save_results filename env st)) = scan_results st.
Proof.
  destruct (save_results_run env st filename) as (t & pre & failure & E & _).
  rewrite E. split; reflexivity.
Qed.

Lemma produced_valid_status env r : produced env r -> valid_status r.
Proof.
  intros [E|(tr & d & _ & E)]; rewrite E; [now right|now left].
Qed.

(** Both lists of a scanner in use hold results that a scan produced. *)
Lemma scanner_state_produced env st :
  scanner_state env st ->
  Forall (produced env) (scan_results st)
  /\ Forall (produced env) (hidden_projects st).
Proof.
  induction 1 as [history|st s e i _ IH|st filename _ IH|st es _ IH].
  - split; constructor.
  - destruct IH as [Hs Hh].
    destruct (scan_range_run env s e i st) as (res & out & es & E & Hp & _).
    rewrite E. cbn [snd scan_results hidden_projects].
    split; apply Forall_app; split; auto.
    apply Forall_forall. intros r Hr. apply filter_In in Hr.
    rewrite Forall_forall in Hp. now apply Hp.
  - destruct (save_results_lists env st filename) as [-> ->]. exact IH.
  - exact IH.
Qed.

(** C9. Every result that [scan_project] returns carries the status
    "success" or the status "error"; the placeholder "unknown" of the dict
    literal never leaves the method.  So every result in the log and in
    the hidden projects of a scanner in use carries one of the two. *)
Theorem scan_project_status env :
  (forall project_id st r st',
      scan_project project_id env st = (Returned r, st') ->
      (status r = "success" \/ status r = "error") /\ status r <> "unknown")
  /\ (forall st,
        scanner_state env st ->
        Forall valid_status (scan_results st)
        /\ Forall valid_status (hidden_projects st)).
Proof.
  split.
  - intros project_id st r st' E.
    destruct (answer_cases (answer env st project_id)) as [Hf|[[d Hw]|[v Hm]]].
    + destruct (scan_project_failure env project_id st Hf) as [lines E'].
      rewrite E' in E. inversion E; subst. split; [now right|discriminate].
    + rewrite (scan_project_success env project_id st d Hw) in E.
      inversion E; subst. split; [now left|discriminate].
    + rewrite (scan_project_malformed env project_id st v Hm) in E. discriminate.
  - intros st Hst. destruct (scanner_state_produced env st Hst) as [Hs Hh].
    split; (eapply Forall_impl; [|eassumption]); apply produced_valid_status.
Qed.

Lemma scan_project_status_witness :
  ((status (error_outcome 7) = "success" \/ status (error_outcome 7) = "error")
   /\ status (error_outcome 7) <> "unknown")
  /\ Forall valid_status
       (scan_results (snd (scan_range 100 102 (1 # 2) (env_of server_sample) (init [])))).
Proof.
  split.
  - apply (proj1 (scan_project_status (env_of server_timeout)) 7 (init [])
             (error_outcome 7)
             (after (init []) [request 7; EPrint (LRequestFailed 7 "Read timed out.")])).
    reflexivity.
  - apply (proj2 (scan_project_status (env_of server_sample))).
    apply After_scan_range, Fresh.
Defined.

Lemma scanner_state_consistent env st : scanner_state env st -> consistent st.
Proof.
  induction 1 as [history|st s e i _ IH|st filename _ IH|st es _ IH].
  - apply init_consistent.
  - now apply scan_range_consistent.
  - unfold consistent in *. destruct (save_results_lists env st filename) as [-> ->].
    exact IH.
  - exact IH.
Qed.

(** [scan_range] runs through the state in which [scan_range_into k]
    ends, for every turn [k] of its loop. *)
Lemma scan_body_split end_id interval total_count project_id loc env st :
  scan_body end_id interval total_count project_id loc env st
  = bind (scan_turn_begin total_count project_id loc)
      (scan_turn_end end_id interval project_id loc) env st.
Proof.
  destruct loc as [scanned_count error_count].
  unfold scan_body, scan_turn_begin, scan_turn_end. cbn [fst].
  rewrite bind_assoc. reflexivity.
Qed.

Lemma skipn_range (k : nat) lo hi :
  (k < List.length (range lo hi))%nat ->
  skipn k (range lo hi) = (lo + Z.of_nat k) :: skipn (S k) (range lo hi).
Proof.
  unfold range. rewrite length_map, length_seq. intros Hk.
  rewrite !skipn_map, !skipn_seq.
  replace (Z.to_nat (hi - lo) - k)%nat with (S (Z.to_nat (hi - lo) - S k)) by lia.
  cbn [seq map]. do 2 f_equal; try lia.
Qed.

Lemma scan_range_split_inside k start_id end_id interval env st :
  (k < List.length (range start_id (end_id + 1)))%nat ->
  scan_range start_id end_id interval env st
  = bind (scan_range_into k start_id end_id interval)
      (scan_range_beyond k start_id end_id interval) env st.
Proof.
  intros Hk. rewrite (scan_range_split k). unfold scan_range_into.
  rewrite bind_assoc, !bind_run.
  destruct (scan_range_upto k start_id end_id interval env st) as [[seen|e] st0];
    [|reflexivity].
  rewrite bind_assoc, bind_run.
  unfold scan_range_from at 1. rewrite skipn_range by exact Hk.
  cbn [for_each]. rewrite bind_assoc, bind_run, scan_body_split, bind_run.
  destruct (scan_turn_begin _ _ _ env st0) as [[result|e] st1]; [|reflexivity].
  rewrite bind_run, ret_run. unfold scan_range_beyond. rewrite bind_run.
  destruct (scan_turn_end _ _ _ _ _ env st1) as [[loc|e] st2]; [|reflexivity].
  destruct seen as [start_time loc0]. reflexivity.
Qed.

Lemma consistent_all_hidden st : consistent st -> all_hidden (hidden_projects st).
Proof.
  intros H. apply consistent_hidden in H. unfold all_hidden.
  eapply Forall_impl; [|exact H]. intros r [_ Hr]. exact Hr.
Qed.

(** The state in which [scan_range_into k] ends: the log is that of the
    end of turn [k], and the hidden projects are its hidden results,
    followed by the result in hand when that one is hidden. *)
Lemma scan_range_into_run k start_id end_id interval env st :
  consistent st ->
  exists res st1,
    scan_range_into k start_id end_id interval env st = (res, st1)
    /\ scan_results st1
       = scan_results (snd (scan_range_upto k start_id end_id interval env st))
    /\ hidden_projects st1
       = filter is_hidden (scan_results st1)
         ++ match res with
            | Returned (_, r) => filter is_hidden [r]
            | Raised _ => []
            end
    /\ all_hidden (hidden_projects st1).
Proof.
  intros H.
  pose proof (scan_range_upto_consistent k start_id end_id interval env st H) as H0.
  unfold scan_range_into. rewrite bind_run.
  destruct (scan_range_upto k start_id end_id interval env st) as [[seen|e] st0].
  - cbn [snd] in *. rewrite bind_run. unfold scan_turn_begin. step.
    set (line := LProgress _ _ _).
    destruct (answer_cases (answer env (after st0 [EPrint line])
                              (start_id + Z.of_nat k)))
      as [Hf|[[d Hw]|[v Hm]]].
    + destruct (scan_project_failure env _ _ Hf) as [lines E]. rewrite E.
      rewrite ret_run. do 2 eexists. split; [reflexivity|].
      cbn [after scan_results hidden_projects filter is_hidden error_outcome
             status String.eqb andb].
      split; [reflexivity|]. split.
      * change (is_hidden (error_outcome (start_id + Z.of_nat k))) with false.
        rewrite app_nil_r. exact H0.
      * now apply consistent_all_hidden.
    + rewrite (scan_project_success env _ _ d Hw).
      set (r := success_outcome (start_id + Z.of_nat k) d).
      assert (Hh : is_hidden r = py_eq_int (dict_get d "hide" PyNone) 1)
        by reflexivity.
      rewrite ret_run. do 2 eexists. split; [reflexivity|].
      cbn [filter]. rewrite Hh.
      destruct (py_eq_int (dict_get d "hide" PyNone) 1) eqn:H1;
        cbn [after scan_results hidden_projects].
      * split; [reflexivity|]. split; [now rewrite H0|].
        apply Forall_app. split; [now apply consistent_all_hidden|].
        constructor; [|constructor]. now apply is_hidden_true.
      * split; [reflexivity|]. split; [now rewrite app_nil_r|].
        now apply consistent_all_hidden.
    + rewrite (scan_project_malformed env _ _ v Hm).
      do 2 eexists. split; [reflexivity|].
      cbn [after scan_results hidden_projects].
      split; [reflexivity|]. split; [now rewrite app_nil_r|].
      now apply consistent_all_hidden.
  - do 2 eexists. split; [reflexivity|]. cbn [snd] in *.
    split; [reflexivity|]. split; [now rewrite app_nil_r|].
    now apply consistent_all_hidden.
Qed.

(** C2, as stated, fails inside a turn.  In the scan of 100..102, whose
    first project is hidden, [scan_project] has appended the result of 100
    to the hidden projects when it returns, and [scan_range] has not yet
    appended it to the log: at that point the hidden projects hold a
    result that the log does not hold. *)
Lemma hidden_projects_run_ahead_of_the_log :
  let env := env_of server_sample in
  let st1 := snd (scan_range_into 0 100 102 (1 # 2) env (init [])) in
  scan_range 100 102 (1 # 2) env (init [])
  = bind (scan_range_into 0 100 102 (1 # 2))
      (scan_range_beyond 0 100 102 (1 # 2)) env (init [])
  /\ map id (hidden_projects st1) = [100]
  /\ scan_results st1 = []
  /\ hidden_projects st1 <> filter is_hidden (scan_results st1).
Proof.
  intros env st1.
  split; [apply scan_range_split_inside; vm_compute; lia|].
  split; [reflexivity|]. split; [reflexivity|]. discriminate.
Qed.

(** C2, amended.  On a scanner in use, at the end of every turn of the
    loop of a scan and after the scan, whether it returns or raises, the
    hidden projects are exactly the results of the log with status
    "success" and hide equal to 1, in the order of the log.  Inside a
    turn, between the return of [scan_project] and the append to the log,
    they are these results followed by the result in hand, when that one
    is hidden.  The two lists change nowhere else, and at each of these
    points every hidden project has status "success" and a hide equal to
    1: none has status "error" or a hide of [None]. *)
Theorem hidden_projects_invariant env st start_id end_id interval :
  scanner_state env st ->
  (forall k,
     let st' := snd (scan_range_upto k start_id end_id interval env st) in
     hidden_projects st' = filter is_hidden (scan_results st')
     /\ Forall (fun r => In r (scan_results st')
                         /\ status r = "success" /\ py_eq_int (hide r) 1 = true
                         /\ status r <> "error" /\ hide r <> PyNone)
          (hidden_projects st'))
  /\ (let st' := snd (scan_range start_id end_id interval env st) in
      hidden_projects st' = filter is_hidden (scan_results st')
      /\ Forall (fun r => In r (scan_results st')
                          /\ status r = "success" /\ py_eq_int (hide r) 1 = true
                          /\ status r <> "error" /\ hide r <> PyNone)
           (hidden_projects st'))
  /\ (forall k,
        (k < List.length (range start_id (end_id + 1)))%nat ->
        scan_range start_id end_id interval env st
        = bind (scan_range_into k start_id end_id interval)
            (scan_range_beyond k start_id end_id interval) env st
        /\ exists res st1,
             scan_range_into k start_id end_id interval env st = (res, st1)
             /\ scan_results st1
                = scan_results
                    (snd (scan_range_upto k start_id end_id interval env st))
             /\ hidden_projects st1
                = filter is_hidden (scan_results st1)
                  ++ match res with
                     | Returned (_, r) => filter is_hidden [r]
                     | Raised _ => []
                     end
             /\ all_hidden (hidden_projects st1)).
Proof.
  intros Hst. pose proof (scanner_state_consistent env st Hst) as H.
  split; [|split].
  - intros k st'.
    pose proof (scan_range_upto_consistent k start_id end_id interval env st H) as Hk.
    split; [exact Hk|now apply consistent_hidden].
  - intros st'.
    pose proof (scan_range_consistent start_id end_id interval env st H) as Hk.
    split; [exact Hk|now apply consistent_hidden].
  - intros k Hk. split; [now apply scan_range_split_inside|].
    now apply scan_range_into_run.
Qed.

Lemma hidden_projects_invariant_witness :
  let env := env_of server_sample in
  let st' := snd (scan_range_upto 2 100 102 (1 # 2) env (init [])) in
  (hidden_projects st' = filter is_hidden (scan_results st')
   /\ List.length (scan_results st') = 2%nat
   /\ List.length (hidden_projects st') = 1%nat)
  /\ exists seen r st1,
       scan_range_into 0 100 102 (1 # 2) env (init []) = (Returned (seen, r), st1)
       /\ scan_results st1 = []
       /\ hidden_projects st1 = [r]
       /\ id r = 100.
Proof.
  intros env st'.
  destruct (hidden_projects_invariant env (init []) 100 102 (1 # 2))
    as (Hk & _ & Hin).
  - apply Fresh.
  - split.
    + split; [exact (proj1 (Hk 2%nat))|]. split; reflexivity.
    + destruct (Hin 0%nat) as (_ & res & st1 & E & Hr & Hh & _);
        [vm_compute; lia|].
      vm_compute in E. inversion E; subst res st1. clear E.
      do 3 eexists. split; [vm_compute; reflexivity|].
      repeat split; reflexivity.
Defined.

(** *** Requests and delays *)








(** C10. [scan_range] never clears the two lists.  On a scanner built by
    [__init__], a first scan appends its results [out1] to the empty log,
    a second scan appends its results [out2] after them, and the hidden
    projects grow in the same way.  A scan that returns has appended one
    result for each ID of its range.  [save_results] afterwards writes a
    document whose total_scanned and hidden_count count the results of
    both scans. *)
Theorem scans_accumulate env s1 e1 i1 s2 e2 i2 history filename :
  exists r1 st1 r2 st2 st3 out1 out2 scan_time failure,
    scan_range s1 e1 i1 env (init history) = (r1, st1)
    /\ scan_range s2 e2 i2 env st1 = (r2, st2)
    /\ save_results filename env st2 = (Returned tt, st3)
    /\ scan_results st1 = out1
    /\ hidden_projects st1 = filter is_hidden out1
    /\ scan_results st2 = out1 ++ out2
    /\ hidden_projects st2 = filter is_hidden out1 ++ filter is_hidden out2
    /\ (r1 = Returned tt -> map id out1 = range s1 (e1 + 1))
    /\ (r2 = Returned tt -> map id out2 = range s2 (e2 + 1))
    /\ In (EWriteFile (saved_name env st2 filename)
             (Json.dumps (results_data scan_time st2)) failure) (trace st3)
    /\ py_item (results_data scan_time st2) "total_scanned"
       = Some (PyInt (Z.of_nat (List.length out1 + List.length out2)))
    /\ py_item (results_data scan_time st2) "hidden_count"
       = Some (PyInt (Z.of_nat (List.length (filter is_hidden out1)
                                + List.length (filter is_hidden out2)))).
Proof.
  destruct (scan_range_run env s1 e1 i1 (init history))
    as (r1 & out1 & es1 & E1 & _ & H1).
  set (st1 := mk_state _ _ _) in E1.
  destruct (scan_range_run env s2 e2 i2 st1) as (r2 & out2 & es2 & E2 & _ & H2).
  set (st2 := mk_state _ _ _) in E2.
  destruct (save_results_run env st2 filename) as (scan_time & pre & failure & E3 & _).
  exists r1, st1, r2, st2. eexists. exists out1, out2, scan_time, failure.
  split; [exact E1|]. split; [exact E2|]. split; [exact E3|].
  split; [reflexivity|]. split; [reflexivity|]. split; [reflexivity|].
  split; [reflexivity|].
  split; [|split; [|split; [|split]]].
  - intros ->. destruct H1 as [(_ & H & _)|(e & last & H & _)];
      [exact H|discriminate].
  - intros ->. destruct H2 as [(_ & H & _)|(e & last & H & _)];
      [exact H|discriminate].
  - cbn [after trace]. apply in_or_app. right. apply in_or_app. right. now left.
  - cbn. now rewrite length_app.
  - cbn. now rewrite length_app.
Qed.

(** Two scans on one scanner, then a save: the document counts the results
    of both. *)
Example two_scans :
  exists st1 st2 st3 scan_time,
    scan_range 100 102 (1 # 2) (env_of server_sample) (init []) = (Returned tt, st1)
    /\ scan_range 100 100 (1 # 2) (env_of server_sample) st1 = (Returned tt, st2)
    /\ save_results (Some "scan.json") (env_of server_sample) st2 = (Returned tt, st3)
    /\ map id (scan_results st2) = [100; 101; 102; 100]
    /\ map id (hidden_projects st2) = [100; 100]
    /\ file_content (trace st3) "scan.json"
       = Some (Json.dumps (results_data scan_time st2))
    /\ py_item (results_data scan_time st2) "total_scanned" = Some (PyInt 4)
    /\ py_item (results_data scan_time st2) "hidden_count" = Some (PyInt 2).
Proof.
  do 3 eexists. exists (sample_clock []).
  split; [vm_compute; reflexivity|]. split; [vm_compute; reflexivity|].
  split; [vm_compute; reflexivity|]. repeat split; vm_compute; reflexivity.
Qed.

(** When the server never sends a malformed data and [time.sleep] takes
    the interval, [scan_range] returns, and it has appended exactly one
    result per ID of the range, in ascending order. *)
Lemma scan_range_complete env start_id end_id interval st :
  never_malformed env ->
  sleep_error env interval = None ->
  exists st' out,
    scan_range start_id end_id interval env st = (Returned tt, st')
    /\ scan_results st' = scan_results st ++ out
    /\ hidden_projects st' = hidden_projects st ++ filter is_hidden out
    /\ map id out = range start_id (end_id + 1)
    /\ Z.of_nat (List.length out) = Z.max 0 (end_id - start_id + 1)
    /\ Forall valid_status out.
Proof.
  intros Hnm Hq.
  destruct (scan_range_run env start_id end_id interval st)
    as (res & out & es & E & Hv & Hres).
  destruct Hres as [(-> & Hids & _)|(e & last & _ & _ & _ & Hs)].
  - eexists. exists out. split; [exact E|]. repeat split; auto.
    + rewrite <- (length_map id), Hids, range_length. lia.
    + eapply Forall_impl; [|exact Hv]. apply produced_valid_status.
  - destruct Hs as [[(tr & v & Hm) _]|(Hq' & _)].
    + destruct (Hnm _ _ _ Hm).
    + now destruct Hq'.
Qed.

(** ** Reading back what [json.dumps] writes *)

Module JsonFacts.
Import Json.
Local Open Scope string_scope.
Local Open Scope nat_scope.

Lemma length_append (s t : string) :
  String.length (s ++ t) = String.length s + String.length t.
Proof. induction s as [|c s IH]; simpl; [reflexivity|now rewrite IH]. Qed.

Lemma append_assoc (s t u : string) : (s ++ t) ++ u = s ++ (t ++ u).
Proof. induction s as [|c s IH]; simpl; [reflexivity|now rewrite IH]. Qed.

Lemma append_nil_r (s : string) : s ++ "" = s.
Proof. induction s as [|c s IH]; simpl; [reflexivity|now rewrite IH]. Qed.

(** *** Strings *)

(** The scanner undoes the escape of one character. *)
Lemma scanstring_escape_char (c : ascii) (fuel : nat) (tail : string) :
  scanstring (S fuel) (escape_char c ++ tail)
  = prepend (String c "") (scanstring fuel tail).
Proof.
  destruct c as [[] [] [] [] [] [] [] []]; reflexivity.
Qed.

(** The escaped text of a string is read back as that string. *)
Lemma scanstring_escape (s : string) :
  forall fuel rest,
    String.length s < fuel ->
    scanstring fuel (escape s ++ String dquote rest) = Some (s, rest).
Proof.
  induction s as [|c s IH]; intros fuel rest Hf.
  - destruct fuel; [inversion Hf|]. reflexivity.
  - destruct fuel; [inversion Hf|]. cbn [escape].
    rewrite append_assoc, scanstring_escape_char, IH by (simpl in Hf; lia).
    reflexivity.
Qed.

Lemma encode_basestring_app (s rest : string) :
  encode_basestring s ++ rest = String dquote (escape s ++ String dquote rest).
Proof. unfold encode_basestring. cbn [append]. now rewrite append_assoc. Qed.

(** *** Integers *)

Lemma closes_not_digit rest :
  closes rest -> span_digits rest = ("", rest).
Proof.
  destruct rest as [|c rest]; [reflexivity|]. intros [->| ->]; reflexivity.
Qed.

Lemma closes_not_float rest : closes rest -> float_follows rest = false.
Proof.
  destruct rest as [|c rest]; [reflexivity|].
  intros [->| ->]; destruct rest; reflexivity.
Qed.

Lemma span_digits_uint (d : Decimal.uint) (rest : string) :
  closes rest ->
  span_digits (NilEmpty.string_of_uint d ++ rest)
  = (NilEmpty.string_of_uint d, rest).
Proof.
  intros Hr. induction d; cbn [NilEmpty.string_of_uint append];
    try (cbn [span_digits]; change (is_digit _) with true; cbv iota;
         rewrite IHd; reflexivity).
  now apply closes_not_digit.
Qed.

Lemma nzhead_shape (d : Decimal.uint) :
  Decimal.nzhead d = Decimal.Nil \/ leads_nonzero (Decimal.nzhead d).
Proof. induction d; simpl; auto. Qed.

Lemma to_uint_leads_nonzero (p : positive) : leads_nonzero (Pos.to_uint p).
Proof.
  assert (E : Pos.to_uint p = Decimal.unorm (Pos.to_uint p)).
  { rewrite <- DecimalPos.Unsigned.to_of, DecimalPos.Unsigned.of_to. reflexivity. }
  pose proof (DecimalPos.Unsigned.to_uint_nonzero p) as Hz.
  rewrite E in Hz |- *. unfold Decimal.unorm in *.
  destruct (nzhead_shape (Pos.to_uint p)) as [H|H].
  - rewrite H in Hz. now destruct Hz.
  - destruct (Decimal.nzhead (Pos.to_uint p)); simpl in *; auto.
Qed.

Lemma parse_number_uint (d : Decimal.uint) (rest : string) :
  leads_nonzero d ->
  closes rest ->
  forall s2 c,
    NilEmpty.string_of_uint d = String c s2 ->
    is_digit c = true /\ Ascii.eqb c "0" = false
    /\ span_digits (s2 ++ rest) = (s2, rest).
Proof.
  intros Hd Hr s2 c E.
  destruct d; try destruct Hd; cbn [NilEmpty.string_of_uint] in E;
    inversion E; subst; (split; [reflexivity|split; [reflexivity|]]);
    now apply span_digits_uint.
Qed.

Lemma string_of_uint_nonempty (d : Decimal.uint) :
  leads_nonzero d ->
  exists c s2, NilEmpty.string_of_uint d = String c s2
               /\ NilZero.string_of_uint d = String c s2.
Proof. destruct d; intros H; try destruct H; simpl; eauto. Qed.

Lemma int_of_string_of_int (z : Z) :
  NilZero.int_of_string (str_of_int z) = Some (Z.to_int z).
Proof.
  unfold str_of_int. apply NilZero.isi; destruct z; simpl; try discriminate.
  - intros E. inversion E as [E']. now apply DecimalPos.Unsigned.to_uint_nonnil in E'.
  - intros E. inversion E as [E']. now apply DecimalPos.Unsigned.to_uint_nonnil in E'.
Qed.

(** The decimal text of an int is read back as that int. *)
Lemma parse_number_int (z : Z) (rest : string) :
  closes rest ->
  parse_number (str_of_int z ++ rest) = Some (PyInt z, rest).
Proof.
  intros Hr. pose proof (int_of_string_of_int z) as Hi.
  unfold str_of_int in *. destruct z as [|p|p].
  - cbn in Hi |- *. rewrite (closes_not_float rest Hr). reflexivity.
  - cbn [Z.to_int NilZero.string_of_int] in Hi |- *.
    destruct (string_of_uint_nonempty _ (to_uint_leads_nonzero p))
      as (c & s2 & E & E').
    rewrite E' in Hi |- *.
    destruct (parse_number_uint _ rest (to_uint_leads_nonzero p) Hr s2 c E)
      as (Hd & H0 & Hs).
    unfold parse_number. cbn [append].
    assert (Hm : Ascii.eqb c "-" = false).
    { destruct (Ascii.eqb_spec c "-"); [subst c; discriminate Hd|reflexivity]. }
    rewrite Hm, Hd, H0, Hs, (closes_not_float rest Hr). cbn [append].
    rewrite Hi.
    exact (f_equal (fun z => Some (PyInt z, rest)) (DecimalZ.of_to (Z.pos p))).
  - cbn [Z.to_int NilZero.string_of_int] in Hi |- *.
    destruct (string_of_uint_nonempty _ (to_uint_leads_nonzero p))
      as (c & s2 & E & E').
    rewrite E' in Hi |- *.
    destruct (parse_number_uint _ rest (to_uint_leads_nonzero p) Hr s2 c E)
      as (Hd & H0 & Hs).
    unfold parse_number. cbn [append Ascii.eqb Bool.eqb].
    rewrite Hd, H0, Hs, (closes_not_float rest Hr). cbn [append].
    rewrite Hi.
    exact (f_equal (fun z => Some (PyInt z, rest)) (DecimalZ.of_to (Z.neg p))).
Qed.

(** *** White space and first characters *)

Lemma skip_ws_spaces (n : nat) (s : string) : skip_ws (spaces n ++ s) = skip_ws s.
Proof. induction n as [|n IH]; [reflexivity|exact IH]. Qed.

Lemma skip_ws_newline_indent (level : nat) (s : string) :
  skip_ws (newline_indent level ++ s) = skip_ws s.
Proof. unfold newline_indent. cbn [append skip_ws]. apply skip_ws_spaces. Qed.

Lemma opens_skip_ws s : opens s -> skip_ws s = s.
Proof.
  destruct s as [|c s]; [intros []|]. intros [H _]. cbn [skip_ws]. now rewrite H.
Qed.

Lemma opens_not_closing s : opens s -> strip_prefix "]" s = None.
Proof.
  destruct s as [|c s]; [intros []|]. intros [_ H]. cbn [strip_prefix]. now rewrite H.
Qed.

Lemma opens_length s : opens s -> 1 <= String.length s.
Proof. destruct s; [intros []|]. simpl. lia. Qed.

Lemma opens_app s t : opens s -> opens (s ++ t).
Proof. destruct s; [intros []|]. auto. Qed.

Lemma digit_or_minus (c : ascii) :
  is_digit c || Ascii.eqb c "-" = true ->
  is_ws c = false /\ Ascii.eqb "]" c = false
  /\ forall fuel s, parse_value (S fuel) (String c s) = parse_number (String c s).
Proof.
  destruct c as [[] [] [] [] [] [] [] []]; intros H; try discriminate H;
    repeat split.
Qed.

Lemma str_of_int_head (z : Z) :
  exists c s, str_of_int z = String c s /\ is_digit c || Ascii.eqb c "-" = true.
Proof.
  unfold str_of_int. destruct z as [|p|p]; cbn [Z.to_int NilZero.string_of_int].
  - eexists _, _. split; reflexivity.
  - destruct (string_of_uint_nonempty _ (to_uint_leads_nonzero p)) as (c & s2 & E & E').
    destruct (parse_number_uint _ "" (to_uint_leads_nonzero p) I s2 c E) as (Hd & _).
    exists c, s2. rewrite E', Hd. auto.
  - eexists _, _. split; reflexivity.
Qed.

Lemma encode_opens (level : nat) (v : pyval) : opens (encode level v).
Proof.
  destruct v as [|[]|z|s|[|x l]|[|[k x] kv]]; try (split; reflexivity).
  destruct (str_of_int_head z) as (c & s & E & H).
  cbn [encode]. rewrite E. destruct (digit_or_minus c H) as (H1 & H2 & _). now split.
Qed.

(** *** Values *)

(** Induction on values, with the property at hand for the items of a
    list and the values of a dict. *)
Lemma pyval_nested_ind (P : pyval -> Prop) :
  P PyNone ->
  (forall b, P (PyBool b)) ->
  (forall z, P (PyInt z)) ->
  (forall s, P (PyStr s)) ->
  (forall l, Forall P l -> P (PyList l)) ->
  (forall kv, Forall (fun p => P (snd p)) kv -> P (PyDict kv)) ->
  forall v, P v.
Proof.
  intros HNone HBool HInt HStr HList HDict.
  fix IH 1. intros [|b|z|s|l|kv].
  - exact HNone.
  - apply HBool.
  - apply HInt.
  - apply HStr.
  - apply HList. revert l. fix IHl 1. intros [|x l].
    + constructor.
    + constructor; [apply IH|apply IHl].
  - apply HDict. revert kv. fix IHkv 1. intros [|[k x] kv].
    + constructor.
    + constructor; [apply IH|apply IHkv].
Qed.

Lemma genuine_list l : genuine (PyList l) <-> Forall genuine l.
Proof.
  induction l as [|x l IH]; split; intros H.
  - constructor.
  - exact I.
  - destruct H as [Hx Hl]. constructor; [exact Hx|now apply IH].
  - inversion H; subst. split; [assumption|now apply IH].
Qed.

Lemma genuine_dict kv :
  genuine (PyDict kv) <-> NoDup (map fst kv) /\ Forall (fun p => genuine (snd p)) kv.
Proof.
  cbn [genuine]. apply and_iff_compat_l.
  induction kv as [|[k x] kv IH]; split; intros H.
  - constructor.
  - exact I.
  - destruct H as [Hx Hl]. constructor; [exact Hx|now apply IH].
  - inversion H; subst. split; [assumption|now apply IH].
Qed.

Lemma encode_list level x l :
  encode level (PyList (x :: l))
  = "[" ++ newline_indent (S level) ++ encode (S level) x
    ++ encode_items (S level) l ++ newline_indent level ++ "]".
Proof.
  cbn [encode]. do 3 f_equal. apply (f_equal (fun s => s ++ _)).
  induction l as [|y l IH]; [reflexivity|]. cbn [encode_items]. now rewrite <- IH.
Qed.

Lemma encode_dict level k x kv :
  encode level (PyDict ((k, x) :: kv))
  = "{" ++ newline_indent (S level) ++ encode_basestring k ++ ": "
    ++ encode (S level) x ++ encode_members (S level) kv
    ++ newline_indent level ++ "}".
Proof.
  cbn [encode]. do 5 f_equal. apply (f_equal (fun s => s ++ _)).
  induction kv as [|[k' y] kv IH]; [reflexivity|]. cbn [encode_members].
  now rewrite <- IH.
Qed.

Lemma dict_update_fresh kv k v :
  ~ In k (map fst kv) -> dict_update kv k v = (kv ++ [(k, v)])%list.
Proof.
  induction kv as [|[k' v'] kv IH]; intros H; [reflexivity|].
  cbn [dict_update]. destruct (String.eqb_spec k' k) as [->|Hne].
  - destruct H. now left.
  - cbn [app]. rewrite IH; [reflexivity|]. intros Hin. apply H. now right.
Qed.

(** Pairs with distinct keys make the dict of these pairs. *)
Lemma dict_of_pairs_distinct kv :
  NoDup (map fst kv) -> dict_of_pairs kv = kv.
Proof.
  unfold dict_of_pairs.
  assert (G : forall done,
             NoDup (map fst (done ++ kv)%list) ->
             fold_left (fun acc p => dict_update acc (fst p) (snd p)) kv done
             = (done ++ kv)%list).
  { induction kv as [|[k v] kv IH]; intros done H.
    - now rewrite List.app_nil_r.
    - cbn [fold_left fst snd]. rewrite dict_update_fresh.
      + rewrite IH; rewrite <- List.app_assoc; [reflexivity|exact H].
      + rewrite map_app in H. apply NoDup_remove_2 in H.
        intros Hin. apply H. apply in_or_app. now left. }
  intros H. apply (G []). exact H.
Qed.

Lemma length_escape s : String.length s <= String.length (escape s).
Proof.
  induction s as [|c s IH]; [reflexivity|]. cbn [escape]. rewrite length_append.
  assert (1 <= String.length (escape_char c)).
  { destruct c as [[] [] [] [] [] [] [] []]; cbn; lia. }
  simpl. lia.
Qed.

Ltac lengths :=
  repeat (rewrite ?length_append in *; cbn [String.length] in *).

Lemma closes_newline_indent level s : closes (newline_indent level ++ s).
Proof. now right. Qed.

(** The items of a list, from the first item to the closing bracket. *)
Lemma parse_items_encode (lv lv' : nat) :
  forall l x rest fuel,
    Forall reads_back (x :: l) ->
    2 * String.length (encode lv x ++ encode_items lv l
                       ++ newline_indent lv' ++ String "]" rest) + 1 < fuel ->
    parse_items fuel (encode lv x ++ encode_items lv l
                      ++ newline_indent lv' ++ String "]" rest)
    = Some (x :: l, rest).
Proof.
  induction l as [|y l IH]; intros x rest fuel Hall Hf.
  - destruct fuel as [|fuel]; [lia|]. cbn [encode_items append] in *.
    inversion Hall as [|? ? Hx _]; subst.
    cbn [parse_items]. rewrite Hx; [|apply closes_newline_indent|lia].
    rewrite skip_ws_newline_indent. reflexivity.
  - destruct fuel as [|fuel]; [lia|].
    inversion Hall as [|? ? Hx Hl]; subst.
    cbn [encode_items] in *. rewrite !append_assoc in *.
    cbn [parse_items]. rewrite Hx; [|now left|lia].
    cbn [append skip_ws]. change (is_ws ",") with false. cbv iota.
    change (Ascii.eqb "," ",") with true. cbv iota.
    rewrite skip_ws_newline_indent, opens_skip_ws
      by (apply opens_app, encode_opens).
    rewrite IH; [reflexivity|exact Hl|].
    pose proof (opens_length _ (encode_opens lv x)).
    lengths. lia.
Qed.

Lemma skip_ws_colon t : skip_ws (String ":" t) = String ":" t.
Proof. reflexivity. Qed.

Lemma skip_ws_comma t : skip_ws (String "," t) = String "," t.
Proof. reflexivity. Qed.

Lemma skip_ws_space t : skip_ws (String " " t) = skip_ws t.
Proof. reflexivity. Qed.

(** The members of a dict, from the first key to the closing brace. *)
Lemma parse_members_encode (lv lv' : nat) :
  forall kv k x rest fuel,
    Forall (fun p => reads_back (snd p)) ((k, x) :: kv) ->
    2 * String.length (encode_basestring k
                       ++ String ":" (String " " (encode lv x
                       ++ encode_members lv kv
                       ++ newline_indent lv' ++ String "}" rest))) + 1 < fuel ->
    parse_members fuel (encode_basestring k
                        ++ String ":" (String " " (encode lv x
                        ++ encode_members lv kv
                        ++ newline_indent lv' ++ String "}" rest)))
    = Some ((k, x) :: kv, rest).
Proof.
  induction kv as [|[k' y] kv IH]; intros k x rest fuel Hall Hf.
  - destruct fuel as [|fuel]; [lia|].
    inversion Hall as [|? ? Hx _]; subst. cbn [snd] in Hx.
    cbn [encode_members append] in *.
    rewrite encode_basestring_app in *.
    pose proof (length_escape k).
    cbn [parse_members]. change (Ascii.eqb dquote dquote) with true. cbv iota.
    rewrite scanstring_escape by (lengths; lia).
    rewrite skip_ws_colon. cbv iota.
    change (Ascii.eqb ":" ":") with true. cbv iota.
    rewrite skip_ws_space, opens_skip_ws by (apply opens_app, encode_opens).
    rewrite Hx; [|apply closes_newline_indent|lengths; lia].
    rewrite skip_ws_newline_indent. reflexivity.
  - destruct fuel as [|fuel]; [lia|].
    inversion Hall as [|? ? Hx Hl]; subst. cbn [snd] in Hx.
    cbn [encode_members] in *. rewrite !append_assoc in *.
    rewrite (encode_basestring_app k) in *. cbn [append] in *.
    pose proof (length_escape k).
    cbn [parse_members]. change (Ascii.eqb dquote dquote) with true. cbv iota.
    rewrite scanstring_escape by (lengths; lia).
    rewrite skip_ws_colon. cbv iota.
    change (Ascii.eqb ":" ":") with true. cbv iota.
    rewrite skip_ws_space, opens_skip_ws by (apply opens_app, encode_opens).
    rewrite Hx; [|now left|lengths; lia].
    cbn [append]. rewrite skip_ws_comma. cbv iota.
    change (Ascii.eqb "," ",") with true. cbv iota.
    rewrite skip_ws_newline_indent.
    assert (Hq : forall t, skip_ws (encode_basestring k' ++ t) = encode_basestring k' ++ t)
      by reflexivity.
    rewrite Hq.
    rewrite IH; [reflexivity|exact Hl|].
    pose proof (opens_length _ (encode_opens lv x)).
    lengths. lia.
Qed.

(** Every genuine value is read back from its text. *)
Lemma parse_encode : forall v, genuine v -> reads_back v.
Proof.
  induction v as [|b|z|s|l IHl|kv IHkv] using pyval_nested_ind;
    intros Hg level rest fuel Hr Hf.
  - destruct fuel as [|fuel]; [lia|]. reflexivity.
  - destruct fuel as [|fuel]; [lia|]. destruct b; reflexivity.
  - destruct fuel as [|fuel]; [lia|]. cbn [encode].
    destruct (str_of_int_head z) as (c & s & E & H).
    destruct (digit_or_minus c H) as (_ & _ & Hp).
    pose proof (parse_number_int z rest Hr) as Hn.
    rewrite E in *. cbn [append] in *. rewrite Hp. exact Hn.
  - destruct fuel as [|fuel]; [lia|]. cbn [encode] in *.
    rewrite encode_basestring_app in *.
    pose proof (length_escape s).
    cbn [parse_value]. change (Ascii.eqb dquote dquote) with true. cbv iota.
    rewrite scanstring_escape by (lengths; lia). reflexivity.
  - apply genuine_list in Hg.
    assert (Hall : Forall reads_back l).
    { apply Forall_forall. intros x Hx.
      rewrite Forall_forall in IHl, Hg. now apply IHl, Hg. }
    destruct l as [|x l].
    + destruct fuel as [|fuel]; [lia|]. reflexivity.
    + destruct fuel as [|fuel]; [lia|].
      rewrite encode_list in *. rewrite !append_assoc in *. cbn [append] in *.
      cbn [parse_value]. change (Ascii.eqb "[" dquote) with false.
      change (Ascii.eqb "[" "{") with false. change (Ascii.eqb "[" "[") with true.
      cbv iota.
      rewrite skip_ws_newline_indent, opens_skip_ws
        by (apply opens_app, encode_opens).
      rewrite opens_not_closing by (apply opens_app, encode_opens).
      rewrite parse_items_encode; [reflexivity|exact Hall|].
      lengths. lia.
  - apply genuine_dict in Hg. destruct Hg as [Hnd Hg].
    assert (Hall : Forall (fun p => reads_back (snd p)) kv).
    { apply Forall_forall. intros p Hp.
      rewrite Forall_forall in IHkv, Hg. now apply IHkv, Hg. }
    destruct kv as [|[k x] kv].
    + destruct fuel as [|fuel]; [lia|]. reflexivity.
    + destruct fuel as [|fuel]; [lia|].
      rewrite encode_dict in *. rewrite !append_assoc in *. cbn [append] in *.
      cbn [parse_value]. change (Ascii.eqb "{" dquote) with false.
      change (Ascii.eqb "{" "{") with true. cbv iota.
      rewrite skip_ws_newline_indent.
      assert (Hq : forall t, skip_ws (encode_basestring k ++ t) = encode_basestring k ++ t)
        by reflexivity.
      assert (Hc : forall t, strip_prefix "}" (encode_basestring k ++ t) = None)
        by reflexivity.
      rewrite Hq, Hc.
      rewrite parse_members_encode; [|exact Hall|lengths; lia].
      now rewrite dict_of_pairs_distinct.
Qed.

(** [json.loads(json.dumps(v, ensure_ascii=False, indent=2)) == v] *)
Lemma loads_dumps (v : pyval) : genuine v -> loads (dumps v) = Some v.
Proof.
  intros Hg. unfold loads, dumps.
  rewrite opens_skip_ws by apply encode_opens.
  pose proof (parse_encode v Hg 0 "" (S (2 * String.length (encode 0 v))) I) as H.
  rewrite append_nil_r in H. rewrite H by lia. reflexivity.
Qed.
(** *** What the scanner reads is genuine *)

Lemma dict_update_keys kv k v :
  NoDup (map fst kv) -> NoDup (map fst (dict_update kv k v)).
Proof.
  induction kv as [|[k' v'] kv IH]; intros H.
  - cbn. constructor; [intros []|constructor].
  - cbn [dict_update]. destruct (String.eqb_spec k' k) as [->|Hne].
    + exact H.
    + cbn [map fst] in *. inversion H as [|? ? Hin Hnd]; subst.
      constructor; [|now apply IH].
      intros Hin'. apply Hin. clear - Hin' Hne.
      induction kv as [|[k2 v2] kv IH]; cbn [dict_update map fst In] in *.
      * destruct Hin' as [E|[]]. now destruct Hne.
      * destruct (String.eqb k2 k); cbn [map fst In] in *; tauto.
Qed.

Lemma dict_update_values (P : pyval -> Prop) kv k v :
  Forall (fun p => P (snd p)) kv -> P v ->
  Forall (fun p => P (snd p)) (dict_update kv k v).
Proof.
  induction kv as [|[k' v'] kv IH]; intros H Hv.
  - now constructor.
  - inversion H; subst. cbn [dict_update].
    destruct (String.eqb k' k); constructor; auto.
Qed.

Lemma dict_of_pairs_genuine pairs :
  Forall (fun p => genuine (snd p)) pairs ->
  genuine (PyDict (dict_of_pairs pairs)).
Proof.
  intros H. apply genuine_dict. unfold dict_of_pairs.
  assert (G : forall acc,
             NoDup (map fst acc) /\ Forall (fun p => genuine (snd p)) acc ->
             NoDup (map fst (fold_left (fun kv p => dict_update kv (fst p) (snd p)) pairs acc))
             /\ Forall (fun p => genuine (snd p))
                  (fold_left (fun kv p => dict_update kv (fst p) (snd p)) pairs acc)).
  { induction H as [|[k v] pairs Hv _ IH]; intros acc [Hk Ha]; [now split|].
    cbn [fold_left fst snd]. apply IH. split.
    - now apply dict_update_keys.
    - now apply dict_update_values. }
  apply G. split; constructor.
Qed.

Lemma parse_number_genuine s v rest : parse_number s = Some (v, rest) -> genuine v.
Proof.
  unfold parse_number.
  destruct (match s with
            | EmptyString => ("", s)
            | String c s' => if Ascii.eqb c "-" then ("-", s') else ("", s)
            end) as [sign s1].
  destruct s1 as [|d s2]; [discriminate|].
  destruct (is_digit d); [|discriminate].
  destruct (if Ascii.eqb d "0" then ("", s2) else span_digits s2) as [ds r].
  destruct (float_follows r); [discriminate|].
  destruct (NilZero.int_of_string _); [|discriminate].
  intros E. inversion E; subst. exact I.
Qed.

(** Whatever the scanner reads is a genuine value. *)
Lemma parse_genuine (fuel : nat) :
  (forall s v rest, parse_value fuel s = Some (v, rest) -> genuine v)
  /\ (forall s l rest, parse_items fuel s = Some (l, rest) -> Forall genuine l)
  /\ (forall s kv rest,
        parse_members fuel s = Some (kv, rest) ->
        Forall (fun p => genuine (snd p)) kv).
Proof.
  induction fuel as [|fuel (IHv & IHi & IHm)].
  - repeat split; intros; discriminate.
  - split; [|split].
    + intros s v rest. cbn [parse_value].
      destruct s as [|c s']; [discriminate|].
      destruct (Ascii.eqb c dquote).
      { destruct (scanstring fuel s') as [[str r]|]; [|discriminate].
        intros E; inversion E; subst; exact I. }
      destruct (Ascii.eqb c "{").
      { destruct (strip_prefix "}" (skip_ws s')).
        - intros E; inversion E; subst. cbn. split; [constructor|exact I].
        - destruct (parse_members fuel (skip_ws s')) as [[pairs r]|] eqn:Em; [|discriminate].
          intros E; inversion E; subst. apply dict_of_pairs_genuine. eapply IHm, Em. }
      destruct (Ascii.eqb c "[").
      { destruct (strip_prefix "]" (skip_ws s')).
        - intros E; inversion E; subst. exact I.
        - destruct (parse_items fuel (skip_ws s')) as [[l r]|] eqn:Ei; [|discriminate].
          intros E; inversion E; subst. apply genuine_list. eapply IHi, Ei. }
      destruct (Ascii.eqb c "n").
      { destruct (strip_prefix "null" (String c s')); cbn; [|discriminate].
        intros E; inversion E; subst; exact I. }
      destruct (Ascii.eqb c "t").
      { destruct (strip_prefix "true" (String c s')); cbn; [|discriminate].
        intros E; inversion E; subst; exact I. }
      destruct (Ascii.eqb c "f").
      { destruct (strip_prefix "false" (String c s')); cbn; [|discriminate].
        intros E; inversion E; subst; exact I. }
      apply parse_number_genuine.
    + intros s l rest. cbn [parse_items].
      destruct (parse_value fuel s) as [[v s1]|] eqn:Ev; [|discriminate].
      destruct (skip_ws s1) as [|c s2]; [discriminate|].
      destruct (Ascii.eqb c ",").
      { destruct (parse_items fuel (skip_ws s2)) as [[l' r]|] eqn:Ei; [|discriminate].
        intros E; inversion E; subst. constructor; [eapply IHv, Ev|eapply IHi, Ei]. }
      destruct (Ascii.eqb c "]"); [|discriminate].
      intros E; inversion E; subst. constructor; [eapply IHv, Ev|constructor].
    + intros s kv rest. cbn [parse_members].
      destruct s as [|q s1]; [discriminate|].
      destruct (Ascii.eqb q dquote); [|discriminate].
      destruct (scanstring fuel s1) as [[k s2]|]; [|discriminate].
      destruct (skip_ws s2) as [|c s3]; [discriminate|].
      destruct (Ascii.eqb c ":"); [|discriminate].
      destruct (parse_value fuel (skip_ws s3)) as [[v s4]|] eqn:Ev; [|discriminate].
      destruct (skip_ws s4) as [|c' s5]; [discriminate|].
      destruct (Ascii.eqb c' ",").
      { destruct (parse_members fuel (skip_ws s5)) as [[kv' r]|] eqn:Em; [|discriminate].
        intros E; inversion E; subst. constructor; [eapply IHv, Ev|eapply IHm, Em]. }
      destruct (Ascii.eqb c' "}"); [|discriminate].
      intros E; inversion E; subst. constructor; [eapply IHv, Ev|constructor].
Qed.

Lemma loads_genuine s v : loads s = Some v -> genuine v.
Proof.
  unfold loads.
  destruct (parse_value _ (skip_ws s)) as [[v' rest]|] eqn:E; [|discriminate].
  destruct (skip_ws rest); [|discriminate].
  intros H; inversion H; subst. eapply (proj1 (parse_genuine _)), E.
Qed.

End JsonFacts.

(** *** The document of [save_results] *)

(** The keys of a dict literal are distinct. *)
Ltac distinct_keys :=
  cbn [map fst]; repeat constructor; cbn [In]; intuition discriminate.

Lemma genuine_outcome_dict r : genuine_outcome r -> genuine (outcome_dict r).
Proof.
  intros [Hh Hn]. unfold outcome_dict. apply JsonFacts.genuine_dict. split.
  - distinct_keys.
  - repeat constructor; cbn [snd]; auto. now destruct (error r).
Qed.

Lemma genuine_results_data scan_time st :
  Forall genuine_outcome (scan_results st) ->
  Forall genuine_outcome (hidden_projects st) ->
  genuine (results_data scan_time st).
Proof.
  intros Hs Hh. unfold results_data. apply JsonFacts.genuine_dict. split.
  - distinct_keys.
  - repeat constructor; cbn [snd].
    + apply JsonFacts.genuine_list, Forall_map.
      eapply Forall_impl; [|exact Hh]. apply genuine_outcome_dict.
    + apply JsonFacts.genuine_list, Forall_map.
      eapply Forall_impl; [|exact Hs]. apply genuine_outcome_dict.
Qed.

Lemma outcome_of_outcome_dict r : outcome_of_dict (outcome_dict r) = Some r.
Proof. destruct r as [i h n s [e|]]; reflexivity. Qed.

Lemma file_content_snoc tr e filename :
  file_content (tr ++ [e]) filename
  = match e with
    | EWriteFile f c failure =>
        if String.eqb f filename then
          match failure with
          | None => Some c
          | Some _ => None
          end
        else file_content tr filename
    | _ => file_content tr filename
    end.
Proof. unfold file_content. rewrite fold_left_app. reflexivity. Qed.

(** *** Genuine values stay genuine *)

Lemma genuine_dict_get kv k default :
  genuine (PyDict kv) -> genuine default -> genuine (dict_get kv k default).
Proof.
  intros Hkv Hd. apply JsonFacts.genuine_dict in Hkv. destruct Hkv as [_ Hall].
  unfold dict_get. induction kv as [|[k' v] kv IH]; [exact Hd|].
  inversion Hall; subst. cbn [dict_lookup].
  destruct (String.eqb k' k); [assumption|now apply IH].
Qed.

Lemma produced_genuine env r :
  genuine_server env -> produced env r -> genuine_outcome r.
Proof.
  intros Hg [E|(tr & d & Hw & E)]; rewrite E; [now split|].
  inversion Hw as [kv d' Hc Hd Ha]; subst d'. symmetry in Ha.
  assert (Hkv : genuine (PyDict kv)) by (eapply Hg; [exact Ha|reflexivity]).
  assert (Hdd : genuine (PyDict d)).
  { rewrite <- Hd. now apply genuine_dict_get. }
  split; cbn [hide name success_outcome]; now apply genuine_dict_get.
Qed.

Lemma scanner_state_genuine env st :
  genuine_server env ->
  scanner_state env st ->
  Forall genuine_outcome (scan_results st)
  /\ Forall genuine_outcome (hidden_projects st).
Proof.
  intros Hg Hst. destruct (scanner_state_produced env st Hst) as [Hs Hh].
  split; (eapply Forall_impl; [|eassumption]); intros r; now apply produced_genuine.
Qed.

(** What [save_results] writes is read back: the text parses to a document
    that holds the two counts and, in order, the dicts of the results.
    The file holds the text when the write goes through, and no complete
    text when it fails -- as it does when the text holds a surrogate. *)
Lemma save_results_reads_back env st filename :
  Forall genuine_outcome (scan_results st) ->
  Forall genuine_outcome (hidden_projects st) ->
  exists st' text failure,
    save_results filename env st = (Returned tt, st')
    /\ In (EWriteFile (saved_name env st filename) text failure) (trace st')
    /\ (has_surrogate text = true -> failure <> None)
    /\ (forall e, failure = Some e ->
        In (EPrint (LSaveFailed (exn_str e))) (trace st')
        /\ file_content (trace st') (saved_name env st filename) = None)
    /\ (failure = None ->
        file_content (trace st') (saved_name env st filename) = Some text)
    /\ exists doc all_results hidden,
         Json.loads text = Some doc
         /\ py_item doc "total_scanned"
            = Some (PyInt (Z.of_nat (List.length (scan_results st))))
         /\ py_item doc "hidden_count"
            = Some (PyInt (Z.of_nat (List.length (hidden_projects st))))
         /\ py_item doc "all_results" = Some (PyList all_results)
         /\ map outcome_of_dict all_results = map Some (scan_results st)
         /\ py_item doc "hidden_projects" = Some (PyList hidden)
         /\ map outcome_of_dict hidden = map Some (hidden_projects st).
Proof.
  intros Hs Hh.
  destruct (save_results_run env st filename)
    as (scan_time & pre & failure & E & _ & Hsur).
  set (fn := saved_name env st filename) in *.
  set (doc := results_data scan_time st) in *.
  eexists. exists (Json.dumps doc), failure.
  split; [exact E|]. split; [|split; [exact Hsur|split; [|split]]].
  - cbn [after trace]. apply in_or_app. right. apply in_or_app. right. now left.
  - intros e ->. cbn [after trace]. split.
    + apply in_or_app. right. apply in_or_app. right. right. now left.
    + change (pre ++ [EWriteFile fn (Json.dumps doc) (Some e);
                      EPrint (LSaveFailed (exn_str e))])
        with (pre ++ [EWriteFile fn (Json.dumps doc) (Some e)]
                  ++ [EPrint (LSaveFailed (exn_str e))]).
      rewrite !app_assoc, file_content_snoc, file_content_snoc.
      now rewrite String.eqb_refl.
  - intros ->. cbn [after trace].
    change (pre ++ [EWriteFile fn (Json.dumps doc) None; EPrint (LSaved fn)])
      with (pre ++ [EWriteFile fn (Json.dumps doc) None] ++ [EPrint (LSaved fn)]).
    rewrite !app_assoc, file_content_snoc, file_content_snoc.
    now rewrite String.eqb_refl.
  - exists doc, (map outcome_dict (scan_results st)),
      (map outcome_dict (hidden_projects st)).
    split; [apply JsonFacts.loads_dumps, genuine_results_data; assumption|].
    repeat split; rewrite map_map; apply map_ext; intros r;
      apply outcome_of_outcome_dict.
Qed.

Lemma server_sample_genuine : genuine_server (env_of server_sample).
Proof.
  intros tr url r v. cbn [env_of http_get]. unfold server_sample, ok_body.
  destruct (String.eqb url (url_of 100)); [|destruct (String.eqb url (url_of 101))];
    intros E; inversion E; subst r; cbn [json]; intros E'; inversion E'; subst v.
  all: cbn [genuine project_body map fst];
    repeat match goal with
           | |- _ /\ _ => split
           | |- True => exact I
           | |- NoDup _ => distinct_keys
           end.
Qed.

Lemma server_surrogate_genuine : genuine_server (env_of server_surrogate).
Proof.
  intros tr url r v. cbn [env_of http_get]. unfold server_surrogate, ok_body.
  intros E; inversion E; subst r; cbn [json]; intros E'; inversion E'; subst v.
  cbn [genuine surrogate_body map fst].
  repeat match goal with
         | |- _ /\ _ => split
         | |- True => exact I
         | |- NoDup _ => distinct_keys
         end.
Qed.

(** C7, as stated, fails on a session that holds a str with a surrogate.
    The body [{"code": 0, "data": {"hide": 0, "name": "\ud800"}}] is
    valid JSON: [response.json()] returns it with the name U+D800, and
    [scan_project] stores that name.  The text of the session cannot be
    encoded for the file: [save_results] catches the UnicodeEncodeError,
    prints it and returns, and the file holds no document to read
    back. *)
Lemma save_results_fails_on_a_surrogate :
  let env := env_of server_surrogate in
  let st := snd (scan_range 100 100 (1 # 2) env (init [])) in
  let saved := save_results (Some "scan.json") env st in
  Json.loads surrogate_text = Some surrogate_body
  /\ genuine_server env
  /\ scanner_state env st
  /\ map name (scan_results st) = [PyStr lone_surrogate]
  /\ fst saved = Returned tt
  /\ In (EPrint (LSaveFailed
                   "'utf-8' codec can't encode character: surrogates not allowed"))
       (trace (snd saved))
  /\ file_content (trace (snd saved)) "scan.json" = None.
Proof.
  intros env st saved.
  split; [vm_compute; reflexivity|].
  split; [exact server_surrogate_genuine|].
  split; [apply After_scan_range, Fresh|].
  split; [vm_compute; reflexivity|].
  split; [vm_compute; reflexivity|].
  split; [|vm_compute; reflexivity].
  vm_compute. tauto.
Qed.

(** C7, amended.  On a scanner in use, against a server whose bodies parse
    to genuine Python values (null, booleans, integers, strings, arrays and
    objects; numbers with a fraction or an exponent are not covered),
    [save_results] never raises.  It hands one text to the file, under the
    name [saved_name].  When the write goes through, that text is what a
    reader finds in the file, and parsing it gives back a document whose
    total_scanned is the length of the log, whose hidden_count is the
    length of the hidden projects, and whose all_results and
    hidden_projects hold, in order, dicts from which every result is read
    back with its five fields unchanged.  The write fails when the disk
    refuses the file or when the text holds a surrogate; then
    [save_results] prints the failure, and the file holds no complete
    document. *)
Theorem save_results_round_trip env st filename :
  genuine_server env ->
  scanner_state env st ->
  exists st' text failure,
    save_results filename env st = (Returned tt, st')
    /\ In (EWriteFile (saved_name env st filename) text failure) (trace st')
    /\ (has_surrogate text = true -> failure <> None)
    /\ (forall e, failure = Some e ->
        In (EPrint (LSaveFailed (exn_str e))) (trace st')
        /\ file_content (trace st') (saved_name env st filename) = None)
    /\ (failure = None ->
        file_content (trace st') (saved_name env st filename) = Some text)
    /\ exists doc all_results hidden,
         Json.loads text = Some doc
         /\ py_item doc "total_scanned"
            = Some (PyInt (Z.of_nat (List.length (scan_results st))))
         /\ py_item doc "hidden_count"
            = Some (PyInt (Z.of_nat (List.length (hidden_projects st))))
         /\ py_item doc "all_results" = Some (PyList all_results)
         /\ map outcome_of_dict all_results = map Some (scan_results st)
         /\ py_item doc "hidden_projects" = Some (PyList hidden)
         /\ map outcome_of_dict hidden = map Some (hidden_projects st).
Proof.
  intros Hg Hst. destruct (scanner_state_genuine env st Hg Hst) as [Hs Hh].
  now apply save_results_reads_back.
Qed.

Lemma save_results_round_trip_witness :
  let st := snd (scan_range 100 102 (1 # 2) (env_of server_sample) (init [])) in
  exists st' text,
    save_results (Some "scan.json") (env_of server_sample) st = (Returned tt, st')
    /\ file_content (trace st') "scan.json" = Some text
    /\ exists doc all_results,
         Json.loads text = Some doc
         /\ py_item doc "total_scanned" = Some (PyInt 3)
         /\ py_item doc "hidden_count" = Some (PyInt 1)
         /\ py_item doc "all_results" = Some (PyList all_results)
         /\ map outcome_of_dict all_results = map Some sample_results.
Proof.
  intros st.
  destruct (save_results_round_trip (env_of server_sample) st (Some "scan.json"))
    as (st' & text & failure & E & Hin & _ & _ & Hfile
        & doc & rs & hs & Hl & Ht & Hc & Ha & Hm & _).
  - exact server_sample_genuine.
  - apply After_scan_range, Fresh.
  - exists st', text. split; [exact E|]. split.
    + apply Hfile. vm_compute in E. inversion E; subst st'.
      vm_compute in Hin.
      repeat (destruct Hin as [Hin|Hin]; [try discriminate Hin; now inversion Hin|]).
      destruct Hin.
    + exists doc, rs. auto.
Defined.

